(** * ts-sandbox-server: the sandbox runner and the workspace API

    A shallow embedding of [src/sandbox.ts] ([run_sandbox]) and of
    [src/main.ts]: the authentication middleware of the application and
    the route group [api] (the workspace validator and the execute,
    files, download and create handlers).

    The handlers are programs over the calls they make to the Deno runtime
    (file system, process spawning, random identifiers).  A program is run
    against an arbitrary environment that answers these calls; the run
    records every call together with its answer.  Statements of the form
    "before any file-system call" are statements about that record, and they
    hold for every environment. *)

From Stdlib Require Import ZArith String Ascii List Bool Lia.
From stdpp Require Import base option list strings gmap pretty.

Local Open Scope Z_scope.
Local Open Scope string_scope.

(** ** JavaScript strings *)

Module Js.

(** [hay.startsWith(needle)] *)
Fixpoint starts_with (needle hay : string) : bool :=
  match needle, hay with
  | EmptyString, _ => true
  | String _ _, EmptyString => false
  | String c needle', String d hay' => Ascii.eqb c d && starts_with needle' hay'
  end.

(** [hay.includes(needle)] *)
Fixpoint includes (needle hay : string) : bool :=
  starts_with needle hay ||
  match hay with
  | EmptyString => false
  | String _ rest => includes needle rest
  end.

(** [s.replace(/\.\./g, '')]: the matches are found left to right and do
    not overlap; the text between them is kept. *)
Fixpoint strip_dotdot (s : string) : string :=
  match s with
  | String "." (String "." rest) => strip_dotdot rest
  | String c rest => String c (strip_dotdot rest)
  | EmptyString => EmptyString
  end.

(** [s.replace(/\/+$/, '')]: the maximal run of slashes at the end of the
    string is removed. *)
Fixpoint strip_trailing_slashes (s : string) : string :=
  match s with
  | EmptyString => EmptyString
  | String c rest =>
      match strip_trailing_slashes rest with
      | EmptyString => if Ascii.eqb c "/" then EmptyString else String c EmptyString
      | rest' => String c rest'
      end
  end.

(** The components of a path, separated by ["/"]. *)
Fixpoint segments (s : string) : list string :=
  match s with
  | EmptyString => [EmptyString]
  | String c rest =>
      if Ascii.eqb c "/" then EmptyString :: segments rest
      else match segments rest with
           | [] => [String c EmptyString]
           | seg :: more => String c seg :: more
           end
  end.

(** JSON values, as far as the handlers look at them.  [JObject] stands for
    arrays and objects, whose contents no handler inspects. *)
Inductive value :=
| JUndefined
| JNull
| JBool (b : bool)
| JNumber (n : Z)
| JString (s : string)
| JObject.

(** [!v] is [negb (truthy v)]. *)
Definition truthy (v : value) : bool :=
  match v with
  | JUndefined | JNull => false
  | JBool b => b
  | JNumber n => negb (Z.eqb n 0)
  | JString s => negb (String.eqb s "")
  | JObject => true
  end.

(** Errors thrown by the runtime: the class tested by [instanceof], and the
    [name] and [message] fields of the error object. *)
Inductive error_class :=
| NotFound
| PermissionDenied
| AlreadyExists
| NotADirectory
| IsADirectory
| DOMException
| SyntaxError
| TypeError
| OtherError.

Record error := mkError {
  e_class : error_class;
  e_name : string;
  e_message : string
}.

(** [String(error)], that is [Error.prototype.toString]. *)
Definition String_ (e : error) : string :=
  if String.eqb (e_name e) "" then e_message e
  else if String.eqb (e_message e) "" then e_name e
  else e_name e +:+ ": " +:+ e_message e.

(** [error instanceof Deno.errors.NotFound] *)
Definition is_NotFound (e : error) : bool :=
  match e_class e with NotFound => true | _ => false end.

(** [error instanceof DOMException && error.name === 'AbortError'] *)
Definition is_AbortError (e : error) : bool :=
  match e_class e with
  | DOMException => String.eqb (e_name e) "AbortError"
  | _ => false
  end.

(** The outcome of an awaited call: a value, or a thrown error. *)
Inductive result (A : Type) :=
| Ok (a : A)
| Throw (e : error).
Arguments Ok {A} a.
Arguments Throw {A} e.

(** Whether the call resolved. *)
Definition is_Ok {A} (r : result A) : bool :=
  match r with Ok _ => true | Throw _ => false end.

End Js.

Import Js.

(** ** Calls to the runtime *)

(** What [Deno.stat] resolves to. *)
Record FileInfo := mkFileInfo {
  isFile : bool;
  isDirectory : bool;
  size : Z;
  mtime : option Z
}.

(** What [Deno.readDir] yields. *)
Record DirEntry := mkDirEntry {
  entry_name : string;
  entry_isFile : bool;
  entry_isDirectory : bool
}.

(** An open file ([Deno.FsFile]): the chunks its [readable] stream yields,
    and the error that ends the stream early, if any. *)
Record FsFile := mkFsFile {
  readable : list string;
  read_error : option error
}.

(** An identifier made by [crypto.randomUUID()] is given by its hexadecimal
    digits; [hex_char] is the character of a digit. *)
Definition hex_char (d : N) : ascii :=
  nth (N.to_nat d) (list_ascii_of_string "0123456789abcde") "f"%char.

(** The positions of the digits that follow a dash. *)
Definition dash_before (i : nat) : bool :=
  (Nat.eqb i 8 || Nat.eqb i 12 || Nat.eqb i 16 || Nat.eqb i 20)%bool.

(** The text of the digits from position [i] on. *)
Fixpoint uuid_render (i : nat) (digits : list N) : string :=
  match digits with
  | [] => EmptyString
  | d :: more =>
      let tail := String (hex_char d) (uuid_render (S i) more) in
      if dash_before i then String "-" tail else tail
  end.

(** The text of the identifier: groups of 8, 4, 4, 4 and 12 digits. *)
Definition uuid_string (digits : list N) : string := uuid_render 0 digits.

(** What [command.output()] collects from the finished child process; the
    two streams are held as the text [TextDecoder.decode] makes of them. *)
Record CommandOutput := mkCommandOutput {
  out_success : bool;
  out_stdout : string;
  out_stderr : string
}.

(** How [await command.output()] ends: it resolves, and [signal.aborted]
    tells whether the timer had fired by then, or it rejects.  The only
    caller of [controller.abort()] is the timer, so a process ended by the
    abort shows as a resolved output with the signal aborted or as a
    rejection with the abort error; these are the two cases the source
    tests for. *)
Inductive CommandReply :=
| Resolved (aborted : bool) (output : CommandOutput)
| Rejected (e : error).

(** The calls the handlers make, each with the type of its answer.
    [DenoReadDir] answers with the entries the iteration yields;
    [DenoCommandOutput] stands for [new Deno.Command(cmd, { args, signal })]
    followed by [output()], under a timer of [timeout] milliseconds that
    aborts the signal. *)
Inductive event : Type -> Type :=
| DenoStat (path : string) : event (result FileInfo)
| DenoMkdir (path : string) (recursive : bool) : event (result unit)
| DenoWriteTextFile (path data : string) : event (result unit)
| DenoReadTextFile (path : string) : event (result string)
| DenoRemove (path : string) : event (result unit)
| DenoReadDir (path : string) : event (result (list DirEntry))
| DenoOpen (path : string) : event (result FsFile)
| FileClose (path : string) : event (result unit)
| RandomUUID : event (list N)
| DenoCommandOutput (cmd : string) (args : list string) (timeout : Z)
    : event CommandReply.

(** A call together with the answer it got. *)
Inductive io :=
| IoStat (path : string) (r : result FileInfo)
| IoMkdir (path : string) (recursive : bool) (r : result unit)
| IoWriteTextFile (path data : string) (r : result unit)
| IoReadTextFile (path : string) (r : result string)
| IoRemove (path : string) (r : result unit)
| IoReadDir (path : string) (r : result (list DirEntry))
| IoOpen (path : string) (r : result FsFile)
| IoClose (path : string) (r : result unit)
| IoUUID (digits : list N)
| IoCommand (cmd : string) (args : list string) (timeout : Z) (r : CommandReply).

(** The record of a call and of its answer. *)
Definition log {X} (e : event X) : X -> io :=
  match e in event X return X -> io with
  | DenoStat p => IoStat p
  | DenoMkdir p rec => IoMkdir p rec
  | DenoWriteTextFile p d => IoWriteTextFile p d
  | DenoReadTextFile p => IoReadTextFile p
  | DenoRemove p => IoRemove p
  | DenoReadDir p => IoReadDir p
  | DenoOpen p => IoOpen p
  | FileClose p => IoClose p
  | RandomUUID => IoUUID
  | DenoCommandOutput c a t => IoCommand c a t
  end.

(** The file-system path a call is made with; for the child process, the
    script it is given to execute, the last of its arguments. *)
Definition io_paths (c : io) : list string :=
  match c with
  | IoStat p _ | IoMkdir p _ _ | IoWriteTextFile p _ _ | IoReadTextFile p _
  | IoRemove p _ | IoReadDir p _ | IoOpen p _ | IoClose p _ => [p]
  | IoUUID _ => []
  | IoCommand _ args _ _ =>
      match last args with Some script => [script] | None => [] end
  end.

(** Calls that can change the file system. *)
Definition is_mutation (c : io) : bool :=
  match c with
  | IoMkdir _ _ _ | IoWriteTextFile _ _ _ | IoRemove _ _ | IoCommand _ _ _ _ => true
  | _ => false
  end.

(** Calls of [Deno.remove]. *)
Definition is_remove (c : io) : bool :=
  match c with IoRemove _ _ => true | _ => false end.

(** ** Programs *)

(** A program returns a value, or makes a call and goes on with the
    answer. *)
Inductive prog (R : Type) : Type :=
| Ret (r : R)
| Vis {X : Type} (e : event X) (k : X -> prog R).
Arguments Ret {R} r.
Arguments Vis {R X} e k.

Fixpoint bind {A B} (p : prog A) (f : A -> prog B) : prog B :=
  match p with
  | Ret a => f a
  | Vis e k => Vis e (fun x => bind (k x) f)
  end.

(** [await] of one call. *)
Definition call {X} (e : event X) : prog X := Vis e Ret.

Notation "'let!' x ':=' p 'in' q" := (bind p (fun x => q))
  (at level 10, x name, p at level 100, q at level 200).

(** An environment: a state and the answer it gives to each call. *)
Definition handler (W : Type) : Type := forall X, event X -> W -> X * W.

(** A finished run: the value returned, the calls made in order with
    their answers, and the environment left behind. *)
Record run (R W : Type) := mkRun {
  returned : R;
  trace : list io;
  final : W
}.
Arguments mkRun {R W} returned trace final.
Arguments returned {R W} r.
Arguments trace {R W} r.
Arguments final {R W} r.

(** Running a program in an environment.  Programs are finite, so every
    run ends. *)
Fixpoint interp {W R} (h : handler W) (p : prog R) (w : W) : run R W :=
  match p with
  | Ret r => mkRun r [] w
  | Vis e k =>
      let a := h _ e w in
      let r := interp h (k (fst a)) (snd a) in
      mkRun (returned r) (log e (fst a) :: trace r) (final r)
  end.

(** ** src/sandbox.ts *)

(** The two bounds are numbers; they are held as integers, as the API
    documents them (milliseconds and megabytes). *)
Record RunSandboxOptions := mkOptions {
  code : string;
  workspace : string;
  timeout : Z;
  memoryLimit : Z
}.

Record SandboxResult := mkResult {
  success : bool;
  stdout : string;
  stderr : string;
  timedOut : bool;
  error : option string
}.

(** [`sandbox_${scriptId}.ts`] *)
Definition scriptName (scriptId : list N) : string :=
  "sandbox_" +:+ uuid_string scriptId +:+ ".ts".

(** [`${workspace.replace(/\/+$/, '')}/${scriptName}`] *)
Definition scriptPath (workspace : string) (scriptId : list N) : string :=
  strip_trailing_slashes workspace +:+ "/" +:+ scriptName scriptId.

(** The [args] of the [deno] command; [.filter(Boolean)] drops the empty
    strings.  The limit is held as a whole number and printed in decimal
    digits, which is how the template string prints a whole number whose
    absolute value is below 1e21. *)
Definition command_args (workspace : string) (memoryLimit : Z) (script : string)
  : list string :=
  List.filter (fun a => negb (String.eqb a ""))
    [ "run";
      "--no-remote";
      "--no-npm";
      "--allow-read=" +:+ workspace;
      "--allow-write=" +:+ workspace;
      if truthy (JNumber memoryLimit)
      then "--v8-flags=--max-old-space-size=" +:+ pretty memoryLimit
      else "";
      script ].

(** The [try] and [catch] blocks: the result made of the way
    [command.output()] ended. *)
Definition classify (reply : CommandReply) : SandboxResult :=
  match reply with
  | Resolved aborted output =>
      if aborted then
        mkResult false (out_stdout output) "Execution timed out" true (Some "Timeout")
      else
        mkResult (out_success output) (out_stdout output) (out_stderr output) false None
  | Rejected e =>
      if is_AbortError e then
        mkResult false "" "Execution timed out" true (Some "Timeout")
      else
        mkResult false "" (String_ e) false (Some (String_ e))
  end.

(** [run_sandbox] resolves with a result or rejects with the error of the
    directory creation or of the script write, which no [try] encloses. *)
Definition run_sandbox (options : RunSandboxOptions) : prog (result SandboxResult) :=
  let workspace := workspace options in
  let! st := call (DenoStat workspace) in
  let! made :=
    match st with
    | Ok _ => Ret (Ok tt)
    | Throw _ => call (DenoMkdir workspace true)
    end in
  match made with
  | Throw e => Ret (Throw e)
  | Ok _ =>
      let! scriptId := call RandomUUID in
      let script := scriptPath workspace scriptId in
      let! written := call (DenoWriteTextFile script (code options)) in
      match written with
      | Throw e => Ret (Throw e)
      | Ok _ =>
          let! reply :=
            call (DenoCommandOutput "deno"
                    (command_args workspace (memoryLimit options) script)
                    (timeout options)) in
          let! _ := call (DenoRemove script) in
          Ret (Ok (classify reply))
      end
  end.

(** ** src/main.ts: the route group [api] *)

(** The body of [POST /:workspace/execute] once parsed.  [eb_code] is kept
    as any JSON value, since the handler tests its type; the two bounds are
    absent or numbers, as the interface [RunSandboxOptions] and the API
    table type them. *)
Record ExecuteBody := mkExecuteBody {
  eb_code : value;
  eb_timeout : option Z;
  eb_memoryLimit : option Z
}.

(** The body of [POST /:workspace/files]: each field is absent or a
    string, as the API table types them. *)
Record FilesBody := mkFilesBody {
  fb_action : option string;
  fb_filename : option string;
  fb_content : option string
}.

(** An entry of the [files] array answered by the [list] action. *)
Record FileEntry := mkFileEntry {
  fe_name : string;
  fe_isFile : bool;
  fe_isDirectory : bool;
  fe_size : Z;
  fe_modified : option Z
}.

Inductive payload :=
| ErrorJson (error : string) (details : option string)
| ResultJson (r : SandboxResult)
| SuccessJson (message : string)
| ContentJson (content : string)
| FilesJson (files : list FileEntry)
| StreamBody (headers : list (string * string)) (chunks : list string)
| NotFoundText.

Record response := mkResponse {
  status : Z;
  body : payload
}.

(** [c.json(payload, status)] *)
Definition json (p : payload) (status : Z) : response := mkResponse status p.

(** [!s] for a field that is absent or a string. *)
Definition falsy (s : option string) : bool :=
  match s with
  | None => true
  | Some s => String.eqb s ""
  end.

(** [content === undefined] *)
Definition undefined (content : option string) : bool :=
  match content with
  | None => true
  | Some _ => false
  end.

(** [typeof v === 'string'] *)
Definition typeof_string (v : value) : bool :=
  match v with JString _ => true | _ => false end.

(** The text of a value known to be a string. *)
Definition text_of (v : value) : string :=
  match v with JString s => s | _ => "" end.

(** [workspace.includes('..') || workspace.includes('/') ||
    workspace.includes('\')] *)
Definition has_traversal (name : string) : bool :=
  includes ".." name || includes "/" name || includes "\" name.

(** [POST /:workspace/execute]; [workspace] is the value the validator
    stored in the context. *)
Definition execute (workspace : string) (body : result ExecuteBody) : prog response :=
  match body with
  | Throw e => Ret (json (ErrorJson "Internal server error" (Some (String_ e))) 500)
  | Ok b =>
      let code := eb_code b in
      let timeout := default 5000 (eb_timeout b) in
      let memoryLimit := default 50 (eb_memoryLimit b) in
      if negb (truthy code) || negb (typeof_string code) then
        Ret (json (ErrorJson "Code is required and must be a string" None) 400)
      else if Z.ltb timeout 100 || Z.gtb timeout 30000 then
        Ret (json (ErrorJson "Timeout must be between 100ms and 30000ms" None) 400)
      else if Z.ltb memoryLimit 10 || Z.gtb memoryLimit 500 then
        Ret (json (ErrorJson "Memory limit must be between 10MB and 500MB" None) 400)
      else
        let! result :=
          run_sandbox (mkOptions (text_of code) workspace timeout memoryLimit) in
        match result with
        | Ok r => Ret (json (ResultJson r) 200)
        | Throw e => Ret (json (ErrorJson "Internal server error" (Some (String_ e))) 500)
        end
  end.

(** [`${workspacePath}/${filename.replace(/\.\./g, '')}`], or [null]. *)
Definition filePath (workspacePath : string) (filename : option string)
  : option string :=
  match filename with
  | Some f =>
      if String.eqb f "" then None
      else Some (workspacePath +:+ "/" +:+ strip_dotdot f)
  | None => None
  end.

(** The loop of the [list] action over the entries of the workspace. *)
Fixpoint list_entries (workspacePath : string) (todo : list DirEntry)
    (entries : list FileEntry) : prog response :=
  match todo with
  | [] => Ret (json (FilesJson entries) 200)
  | entry :: more =>
      let entryPath := workspacePath +:+ "/" +:+ entry_name entry in
      let! st := call (DenoStat entryPath) in
      match st with
      | Throw e => Ret (json (ErrorJson "Failed to list files" (Some (String_ e))) 500)
      | Ok info =>
          list_entries workspacePath more
            (entries ++ [mkFileEntry (entry_name entry) (entry_isFile entry)
                           (entry_isDirectory entry) (size info) (mtime info)])%list
      end
  end.

Definition files_action (workspacePath : string) (action : string)
    (filename content : option string) : prog response :=
  let path := filePath workspacePath filename in
  if String.eqb action "list" then
    let! listing := call (DenoReadDir workspacePath) in
    match listing with
    | Throw e => Ret (json (ErrorJson "Failed to list files" (Some (String_ e))) 500)
    | Ok todo => list_entries workspacePath todo []
    end
  else if String.eqb action "read" then
    if falsy filename || falsy path then
      Ret (json (ErrorJson "Filename is required for read action" None) 400)
    else
      let! fileContent := call (DenoReadTextFile (default "" path)) in
      match fileContent with
      | Ok text => Ret (json (ContentJson text) 200)
      | Throw e => Ret (json (ErrorJson "Failed to read file" (Some (String_ e))) 404)
      end
  else if String.eqb action "create" then
    if falsy filename || falsy path || undefined content then
      Ret (json (ErrorJson "Filename and content are required for create action" None) 400)
    else
      let! written := call (DenoWriteTextFile (default "" path) (default "" content)) in
      match written with
      | Ok _ => Ret (json (SuccessJson "File created successfully") 200)
      | Throw e => Ret (json (ErrorJson "Failed to create file" (Some (String_ e))) 500)
      end
  else if String.eqb action "update" then
    if falsy filename || falsy path || undefined content then
      Ret (json (ErrorJson "Filename and content are required for update action" None) 400)
    else
      let caught (e : Js.error) :=
        if is_NotFound e then json (ErrorJson "File does not exist" None) 404
        else json (ErrorJson "Failed to update file" (Some (String_ e))) 500 in
      let! st := call (DenoStat (default "" path)) in
      match st with
      | Throw e => Ret (caught e)
      | Ok _ =>
          let! written :=
            call (DenoWriteTextFile (default "" path) (default "" content)) in
          match written with
          | Ok _ => Ret (json (SuccessJson "File updated successfully") 200)
          | Throw e => Ret (caught e)
          end
      end
  else if String.eqb action "delete" then
    if falsy filename || falsy path then
      Ret (json (ErrorJson "Filename is required for delete action" None) 400)
    else
      let! removed := call (DenoRemove (default "" path)) in
      match removed with
      | Ok _ => Ret (json (SuccessJson "File deleted successfully") 200)
      | Throw e =>
          if is_NotFound e then Ret (json (ErrorJson "File does not exist" None) 404)
          else Ret (json (ErrorJson "Failed to delete file" (Some (String_ e))) 500)
      end
  else
    Ret (json (ErrorJson
                 "Invalid action. Supported actions: list, read, create, update, delete"
                 None) 400).

(** [POST /:workspace/files] *)
Definition files (workspacePath : string) (body : result FilesBody) : prog response :=
  match body with
  | Throw e => Ret (json (ErrorJson "Internal server error" (Some (String_ e))) 500)
  | Ok b =>
      if falsy (fb_action b) then
        Ret (json (ErrorJson "Action is required" None) 400)
      else
        let! st := call (DenoStat workspacePath) in
        match st with
        | Throw _ => Ret (json (ErrorJson "Workspace does not exist" None) 404)
        | Ok _ =>
            files_action workspacePath (default "" (fb_action b))
              (fb_filename b) (fb_content b)
        end
  end.

(** [GET /:workspace/files/download]; [filename] is the query parameter.
    The two response headers are taken to be accepted by the framework,
    which is so when the name is a legal header value (see
    [legal_header_value] below); what the framework does with another
    name is not part of this program.  The stream hands the chunks of
    the file on and closes the file after the last one. *)
Definition download (workspacePath : string) (filename : option string) : prog response :=
  if falsy filename then
    Ret (json (ErrorJson "Filename is required" None) 400)
  else
    let name := default "" filename in
    if has_traversal name then
      Ret (json (ErrorJson "Invalid filename" None) 400)
    else
      let path := workspacePath +:+ "/" +:+ name in
      let! st := call (DenoStat path) in
      match st with
      | Throw _ => Ret (json (ErrorJson "File not found" None) 404)
      | Ok info =>
          if negb (isFile info) then
            Ret (json (ErrorJson "Path is not a file" None) 400)
          else
            let! opened := call (DenoOpen path) in
            match opened with
            | Throw e =>
                Ret (json (ErrorJson "Internal server error" (Some (String_ e))) 500)
            | Ok file =>
                let! _ := call (FileClose path) in
                Ret (json
                       (StreamBody
                          [("Content-Type", "application/octet-stream");
                           ("Content-Disposition",
                            "attachment; filename=" +:+ String (ascii_of_nat 34) name
                              +:+ String (ascii_of_nat 34) "")]
                          (readable file))
                       200)
            end
      end.

(** [POST /:workspace/create] *)
Definition create (workspacePath : string) : prog response :=
  let! st := call (DenoStat workspacePath) in
  match st with
  | Ok _ => Ret (json (ErrorJson "Workspace already exists" None) 409)
  | Throw _ =>
      let! made := call (DenoMkdir workspacePath true) in
      match made with
      | Ok _ => Ret (json (SuccessJson "Workspace created successfully") 200)
      | Throw e =>
          Ret (json (ErrorJson "Failed to create workspace" (Some (String_ e))) 500)
      end
  end.

(** The routes of the group, with what each reads from the request. *)
Inductive endpoint :=
| PostCreate
| PostExecute (body : result ExecuteBody)
| PostFiles (body : result FilesBody)
| GetDownload (filename : option string)
| Unrouted.

(** The middleware [api.use('/:workspace/*')] followed by the route. *)
Definition api (workspace : string) (ep : endpoint) : prog response :=
  if String.eqb workspace "" || has_traversal workspace then
    Ret (json (ErrorJson "Invalid workspace name" None) 400)
  else
    let workspacePath := "./" +:+ workspace in
    match ep with
    | PostCreate => create workspacePath
    | PostExecute body => execute workspacePath body
    | PostFiles body => files workspacePath body
    | GetDownload filename => download workspacePath filename
    | Unrouted => Ret (mkResponse 404 NotFoundText)
    end.

(** ** src/main.ts: the application [app] *)

(** [s.slice(n)]: the string without its first [n] characters. *)
Fixpoint slice (n : nat) (s : string) : string :=
  match n, s with
  | O, _ => s
  | S _, EmptyString => EmptyString
  | S n', String _ rest => slice n' rest
  end.

(** The global middleware that checks the master key.  [MASTER_KEY] is
    the value of the environment variable, [authHeader] the value of the
    [Authorization] header, each absent or a string; [next] is the rest of
    the handling of the request. *)
Definition auth (MASTER_KEY authHeader : option string) (next : prog response)
  : prog response :=
  if falsy MASTER_KEY then next
  else if falsy authHeader then
    Ret (json (ErrorJson "Unauthorized: Missing Authorization header" None) 401)
  else
    let header := default "" authHeader in
    let clientKey :=
      if starts_with "Bearer " header then slice 7 header else header in
    if negb (String.eqb clientKey (default "" MASTER_KEY)) then
      Ret (json (ErrorJson "Unauthorized: Invalid Master Key" None) 401)
    else next.

(** Where a request goes: to a path below [/api/:workspace/], or to a
    path no route is declared for. *)
Inductive target :=
| Api (workspace : string) (ep : endpoint)
| Elsewhere.

(** What the routes make of a request the middleware lets through:
    [app.route('/api', api)], and the answer 404 for any other path.  The
    parameter of ['/:workspace/*'] matches one segment that is not empty:
    a path with nothing between [/api/] and the next slash matches no
    pattern of the group, so that neither its middleware nor a route
    handles it. *)
Definition routed (t : target) : prog response :=
  match t with
  | Api workspace ep =>
      if String.eqb workspace "" then Ret (mkResponse 404 NotFoundText)
      else api workspace ep
  | Elsewhere => Ret (mkResponse 404 NotFoundText)
  end.

(** The application: the middleware, then the routes. *)
Definition app (MASTER_KEY authHeader : option string) (t : target) : prog response :=
  auth MASTER_KEY authHeader (routed t).

(** ** A file system to run the programs on

    One environment among those the programs can meet: a tree of files and
    directories below the working directory, a supply of identifiers, and
    the behaviour of the child process (what it does to the tree and how
    [command.output()] ends).  A directory that is not writable refuses to
    have entries added or removed. *)

Module World.

(** What the tree holds at a path. *)
Inductive node :=
| File (content : string)
| Dir (writable : bool).

(** A path resolved against the working directory: the empty and ["."]
    components are dropped, [".."] removes the component before it. *)
Definition resolve (path : string) : list string :=
  fold_left
    (fun (acc : list string) (seg : string) =>
       if String.eqb seg "" || String.eqb seg "." then acc
       else if String.eqb seg ".." then removelast acc
       else (acc ++ [seg])%list)
    (segments path) [].

(** The directory an entry lives in. *)
Definition parent (q : list string) : list string := removelast q.

(** The tree, the identifiers still to be handed out, and what a child
    process started with given arguments and timeout does to the tree. *)
Record world := mkWorld {
  w_fs : gmap (list string) node;
  w_ids : list (list N);
  w_child : list string -> Z -> gmap (list string) node
            -> CommandReply * gmap (list string) node
}.

(** The call throws an error of class [c]. *)
Definition fail {A} (c : error_class) (name : string) : result A :=
  Throw (mkError c name "").

(** The entries of the directory [q]. *)
Definition entries_of (fs : gmap (list string) node) (q : list string)
  : list (list string * node) :=
  List.filter (fun kn => bool_decide (kn.1 ≠ [] ∧ parent kn.1 = q)) (map_to_list fs).

(** [Deno.stat] *)
Definition stat (fs : gmap (list string) node) (path : string) : result FileInfo :=
  match fs !! resolve path with
  | Some (File content) =>
      Ok (mkFileInfo true false (Z.of_nat (String.length content)) None)
  | Some (Dir _) => Ok (mkFileInfo false true 0 None)
  | None => fail NotFound "NotFound"
  end.

(** Adding the entry [q] to its parent directory. *)
Definition add_entry (fs : gmap (list string) node) (q : list string) (n : node)
  : result unit * gmap (list string) node :=
  match fs !! parent q with
  | Some (Dir true) => (Ok tt, <[q := n]> fs)
  | Some (Dir false) => (fail PermissionDenied "PermissionDenied", fs)
  | Some (File _) => (fail NotADirectory "NotADirectory", fs)
  | None => (fail NotFound "NotFound", fs)
  end.

(** [Deno.mkdir(path, { recursive: true })] over the prefixes [done ++ _]
    of the path, shortest first. *)
Fixpoint mkdir_p (fs : gmap (list string) node) (done todo : list string)
  : result unit * gmap (list string) node :=
  match todo with
  | [] => (Ok tt, fs)
  | seg :: more =>
      let q := (done ++ [seg])%list in
      match fs !! q with
      | Some (Dir _) => mkdir_p fs q more
      | Some (File _) => (fail AlreadyExists "AlreadyExists", fs)
      | None =>
          match add_entry fs q (Dir true) with
          | (Ok _, fs') => mkdir_p fs' q more
          | failed => failed
          end
      end
  end.

(** [Deno.mkdir] *)
Definition mkdir (fs : gmap (list string) node) (path : string) (recursive : bool)
  : result unit * gmap (list string) node :=
  if recursive then mkdir_p fs [] (resolve path)
  else
    match fs !! resolve path with
    | Some _ => (fail AlreadyExists "AlreadyExists", fs)
    | None => add_entry fs (resolve path) (Dir true)
    end.

(** [Deno.writeTextFile]: an existing file is written over, a missing one
    is added to its directory. *)
Definition writeTextFile (fs : gmap (list string) node) (path data : string)
  : result unit * gmap (list string) node :=
  match fs !! resolve path with
  | Some (File _) => (Ok tt, <[resolve path := File data]> fs)
  | Some (Dir _) => (fail IsADirectory "IsADirectory", fs)
  | None => add_entry fs (resolve path) (File data)
  end.

(** [Deno.readTextFile] *)
Definition readTextFile (fs : gmap (list string) node) (path : string) : result string :=
  match fs !! resolve path with
  | Some (File content) => Ok content
  | Some (Dir _) => fail IsADirectory "IsADirectory"
  | None => fail NotFound "NotFound"
  end.

(** [Deno.remove], not recursive: the entry is taken out of its directory,
    which must be writable; a directory must be empty. *)
Definition remove (fs : gmap (list string) node) (path : string)
  : result unit * gmap (list string) node :=
  let q := resolve path in
  match fs !! q with
  | None => (fail NotFound "NotFound", fs)
  | Some n =>
      match fs !! parent q with
      | Some (Dir false) => (fail PermissionDenied "PermissionDenied", fs)
      | _ =>
          match n, entries_of fs q with
          | Dir _, _ :: _ => (Throw (mkError OtherError "Error" "Directory not empty"), fs)
          | _, _ => (Ok tt, delete q fs)
          end
      end
  end.

(** [Deno.readDir] *)
Definition readDir (fs : gmap (list string) node) (path : string)
  : result (list DirEntry) :=
  match fs !! resolve path with
  | Some (Dir _) =>
      Ok (map (fun kn =>
                 mkDirEntry (List.last kn.1 "")
                   (match kn.2 with File _ => true | Dir _ => false end)
                   (match kn.2 with File _ => false | Dir _ => true end))
            (entries_of fs (resolve path)))
  | Some (File _) => fail NotADirectory "NotADirectory"
  | None => fail NotFound "NotFound"
  end.

(** [Deno.open] for reading: the content comes as one chunk. *)
Definition open (fs : gmap (list string) node) (path : string) : result FsFile :=
  match fs !! resolve path with
  | Some (File content) => Ok (mkFsFile [content] None)
  | Some (Dir _) => fail IsADirectory "IsADirectory"
  | None => fail NotFound "NotFound"
  end.

(** The world with its tree replaced. *)
Definition with_fs (w : world) (fs : gmap (list string) node) : world :=
  mkWorld fs (w_ids w) (w_child w).

(** The answers of this world.  When the identifiers run out, the
    identifier made of zeros is handed out. *)
Definition h : handler world :=
  fun X (e : event X) (w : world) =>
    match e in event X return X * world with
    | DenoStat p => (stat (w_fs w) p, w)
    | DenoMkdir p rec => let a := mkdir (w_fs w) p rec in (a.1, with_fs w a.2)
    | DenoWriteTextFile p d => let a := writeTextFile (w_fs w) p d in (a.1, with_fs w a.2)
    | DenoReadTextFile p => (readTextFile (w_fs w) p, w)
    | DenoRemove p => let a := remove (w_fs w) p in (a.1, with_fs w a.2)
    | DenoReadDir p => (readDir (w_fs w) p, w)
    | DenoOpen p => (open (w_fs w) p, w)
    | FileClose _ => (Ok tt, w)
    | RandomUUID =>
        match w_ids w with
        | [] => (repeat 0%N 32, w)
        | id :: more => (id, mkWorld (w_fs w) more (w_child w))
        end
    | DenoCommandOutput _ args t =>
        let a := w_child w args t (w_fs w) in (a.1, with_fs w a.2)
    end.

(** Whether the tree has an entry at the path. *)
Definition present (w : world) (path : string) : bool :=
  bool_decide (is_Some (w_fs w !! resolve path)).

End World.

(** ** Worlds to run the handlers in *)

Module Demo.

Import World.

(** A working directory holding the workspace [ws], with a file [notes]
    and a directory [sub] that holds the file [x], and the regular file
    [deno.json]. *)
Definition tree : gmap (list string) node :=
  list_to_map
    [ ([], Dir true);
      (["deno.json"], File "{}");
      (["ws"], Dir true);
      (["ws"; "notes"], File "hello");
      (["ws"; "sub"], Dir true);
      (["ws"; "sub"; "x"], File "secret") ].

(** A script that prints and exits normally. *)
Definition child_ok (args : list string) (t : Z) (fs : gmap (list string) node)
  : CommandReply * gmap (list string) node :=
  (Resolved false (mkCommandOutput true "out" ""), fs).

(** A script still running when the timer fires: it is killed. *)
Definition child_killed (args : list string) (t : Z) (fs : gmap (list string) node)
  : CommandReply * gmap (list string) node :=
  (Resolved true (mkCommandOutput false "partial" "Terminated"), fs).

(** The [deno] binary cannot be started. *)
Definition child_missing (args : list string) (t : Z) (fs : gmap (list string) node)
  : CommandReply * gmap (list string) node :=
  (Rejected (mkError NotFound "NotFound" "Failed to spawn 'deno'"), fs).

(** A script that makes its workspace directory read-only, as
    [Deno.chmod] under [--allow-write] lets it, and exits normally. *)
Definition child_locks (args : list string) (t : Z) (fs : gmap (list string) node)
  : CommandReply * gmap (list string) node :=
  (Resolved false (mkCommandOutput true "" ""), <[ ["ws"] := Dir false ]> fs).

Definition world (child : list string -> Z -> gmap (list string) node
                          -> CommandReply * gmap (list string) node) : World.world :=
  mkWorld tree [] child.



Definition options : RunSandboxOptions := mkOptions "while (true) {}" "./ws" 500 50.

Definition script : string := scriptPath "./ws" (repeat 0%N 32).

End Demo.

(** * The vocabulary of the statements *)

(** ** Paths *)

(** A path is confined to a directory when it extends the directory's path
    by a separator and further text, and none of its components is
    [".."]. *)
Definition confined (dir path : string) : Prop :=
  starts_with (dir +:+ "/") path = true /\ ~ In ".." (segments path).

(** A string none of whose characters is a dot or a slash. *)
Fixpoint plain (s : string) : bool :=
  match s with
  | EmptyString => true
  | String c rest => negb (Ascii.eqb c ".") && negb (Ascii.eqb c "/") && plain rest
  end.

(** The workspace identifier passes the test of the middleware. *)
Definition valid_workspace (name : string) : bool :=
  negb (String.eqb name "" || has_traversal name).

(** The [list] action, whose paths are made of the names the directory
    listing yields. *)
Definition lists_directory (ep : endpoint) : bool :=
  match ep with
  | PostFiles (Ok b) => String.eqb (default "" (fb_action b)) "list"
  | _ => false
  end.

(** The paths of a call are the workspace directory or confined to it. *)
Definition path_ok (dir : string) (c : io) : Prop :=
  forall p, In p (io_paths c) -> p = dir \/ confined dir p.

(** ** Reasoning about every run of a program

    [wp p Q]: whatever the environment answers, the record [tr] of the run
    of [p] and the value [r] it returns satisfy [Q tr r]. *)

Fixpoint wp {R} (p : prog R) (Q : list io -> R -> Prop) : Prop :=
  match p with
  | Ret r => Q [] r
  | Vis e k => forall x, wp (k x) (fun tr r => Q (log e x :: tr) r)
  end.

(** Every call of every run of [p] satisfies [P]. *)
Definition always {R} (P : io -> Prop) (p : prog R) : Prop :=
  wp p (fun tr _ => Forall P tr).

(** ** Every run of [run_sandbox] *)

(** The calls up to the point where the workspace directory is known to
    exist: it was found, or it was missing and has been created. *)
Definition prepared (workspace : string) (pre : list io) : Prop :=
  (exists info, pre = [IoStat workspace (Ok info)])
  \/ (exists e, pre = [IoStat workspace (Throw e); IoMkdir workspace true (Ok tt)]).

(** The three ways a run of [run_sandbox] goes: the directory cannot be
    created; the script cannot be written; the child process is run and the
    script is then removed. *)
Inductive sandbox_run (o : RunSandboxOptions)
  : list io -> result SandboxResult -> Prop :=
| run_no_directory e0 e :
    sandbox_run o
      [IoStat (workspace o) (Throw e0); IoMkdir (workspace o) true (Throw e)]
      (Throw e)
| run_no_script pre scriptId e :
    prepared (workspace o) pre ->
    sandbox_run o
      (pre ++ [IoUUID scriptId;
               IoWriteTextFile (scriptPath (workspace o) scriptId) (code o) (Throw e)])
      (Throw e)
| run_child pre scriptId reply removed :
    prepared (workspace o) pre ->
    sandbox_run o
      (pre ++ [IoUUID scriptId;
               IoWriteTextFile (scriptPath (workspace o) scriptId) (code o) (Ok tt);
               IoCommand "deno"
                 (command_args (workspace o) (memoryLimit o)
                    (scriptPath (workspace o) scriptId))
                 (timeout o) reply;
               IoRemove (scriptPath (workspace o) scriptId) removed])
      (Ok (classify reply)).

(** ** Executions *)

(** The timer fired before the child process completed: the output is
    collected with the signal aborted, or the wait is rejected with the
    abort error. *)
Definition timer_fired (reply : CommandReply) : bool :=
  match reply with
  | Resolved aborted _ => aborted
  | Rejected e => is_AbortError e
  end.

(** The launch failed: the wait is rejected with an error other than the
    abort error. *)
Definition launch_failed (reply : CommandReply) : option Js.error :=
  match reply with
  | Rejected e => if is_AbortError e then None else Some e
  | Resolved _ _ => None
  end.

(** The checks of the handler on a parsed body. *)
Definition accepted (b : ExecuteBody) : bool :=
  truthy (eb_code b) && typeof_string (eb_code b)
  && negb (Z.ltb (default 5000 (eb_timeout b)) 100
           || Z.gtb (default 5000 (eb_timeout b)) 30000)
  && negb (Z.ltb (default 50 (eb_memoryLimit b)) 10
           || Z.gtb (default 50 (eb_memoryLimit b)) 500).

(** The options the handler passes to [run_sandbox]. *)
Definition execute_options (workspace : string) (b : ExecuteBody) : RunSandboxOptions :=
  mkOptions (text_of (eb_code b)) workspace
    (default 5000 (eb_timeout b)) (default 50 (eb_memoryLimit b)).

(** The response made of the way [run_sandbox] ended. *)
Definition execute_response (x : result SandboxResult) : response :=
  match x with
  | Ok res => json (ResultJson res) 200
  | Throw e => json (ErrorJson "Internal server error" (Some (String_ e))) 500
  end.

(** Arguments that would let the script reach the network, the
    environment variables or other programs: [--allow-net], [--allow-env],
    [--allow-run], [--allow-all], and their short forms. *)
Definition grants_net_env_run (a : string) : bool :=
  starts_with "--allow-net" a || starts_with "--allow-env" a
  || starts_with "--allow-run" a || starts_with "--allow-all" a
  || starts_with "-A" a || starts_with "-N" a || starts_with "-E" a.

(** The parts of a text between its commas. *)
Fixpoint split_commas (s : string) : list string :=
  match s with
  | EmptyString => [EmptyString]
  | String c rest =>
      if Ascii.eqb c "," then EmptyString :: split_commas rest
      else match split_commas rest with
           | first :: others => String c first :: others
           | [] => [String c EmptyString]
           end
  end.

(** The paths [deno run] grants under a permission flag such as
    [--allow-read=]: the value of the flag is a list of paths separated by
    commas. *)
Definition permission_paths (flag : string) (args : list string) : list string :=
  flat_map
    (fun a =>
       if starts_with flag a then split_commas (slice (String.length flag) a) else [])
    args.

(** ** Response headers *)

(** The values a response header can be set to and sent with: every
    character is a tab or a character from the space on other than DEL
    (so none is NUL, a line feed or a carriage return), and none lies
    above U+00FF.  Strings hold text in UTF-8, where a character above
    U+00FF begins with a byte of 196 or more. *)
Definition legal_header_value (v : string) : bool :=
  forallb
    (fun c =>
       let n := nat_of_ascii c in
       Nat.eqb n 9 || (Nat.leb 32 n && negb (Nat.eqb n 127) && Nat.ltb n 196))
    (list_ascii_of_string v).

(** ** Authentication *)

(** The requests the middleware lets through: no key is configured (the
    variable is unset or empty), or the header is the key after
    ["Bearer "], or the header is the key itself and the key does not
    start with ["Bearer "]. *)
Definition authorized (MASTER_KEY authHeader : option string) : Prop :=
  falsy MASTER_KEY = true
  \/ exists key,
       MASTER_KEY = Some key
       /\ (authHeader = Some ("Bearer " +:+ key)
           \/ (authHeader = Some key /\ starts_with "Bearer " key = false)).

(** ** Kinds of calls *)

Inductive call_kind :=
| KStat | KMkdir | KWrite | KRead | KRemove | KReadDir | KOpen | KClose
| KUUID | KCommand.

Definition kind_of (c : io) : call_kind :=
  match c with
  | IoStat _ _ => KStat
  | IoMkdir _ _ _ => KMkdir
  | IoWriteTextFile _ _ _ => KWrite
  | IoReadTextFile _ _ => KRead
  | IoRemove _ _ => KRemove
  | IoReadDir _ _ => KReadDir
  | IoOpen _ _ => KOpen
  | IoClose _ _ => KClose
  | IoUUID _ => KUUID
  | IoCommand _ _ _ _ => KCommand
  end.

(** The kinds of calls each action of the files endpoint makes. *)
Definition action_calls (action : string) : list call_kind :=
  if String.eqb action "list" then [KStat; KReadDir]
  else if String.eqb action "read" then [KStat; KRead]
  else if String.eqb action "create" then [KStat; KWrite]
  else if String.eqb action "update" then [KStat; KWrite]
  else if String.eqb action "delete" then [KStat; KRemove]
  else [KStat].

(** The kinds of calls each route makes. *)
Definition route_calls (ep : endpoint) : list call_kind :=
  match ep with
  | PostCreate => [KStat; KMkdir]
  | PostExecute _ => [KStat; KMkdir; KUUID; KWrite; KCommand; KRemove]
  | PostFiles (Ok b) => action_calls (default "" (fb_action b))
  | PostFiles (Throw _) => []
  | GetDownload _ => [KStat; KOpen; KClose]
  | Unrouted => []
  end.

(** ** Failed calls *)

(** The error a call threw, if it threw. *)
Definition thrown (c : io) : option Js.error :=
  match c with
  | IoStat _ (Throw e) | IoMkdir _ _ (Throw e) | IoWriteTextFile _ _ (Throw e)
  | IoReadTextFile _ (Throw e) | IoRemove _ (Throw e) | IoReadDir _ (Throw e)
  | IoOpen _ (Throw e) | IoClose _ (Throw e) | IoCommand _ _ _ (Rejected e) => Some e
  | _ => None
  end.

Definition threw (c : io) : bool :=
  match thrown c with Some _ => true | None => false end.


(** ** The list action *)

(** The entry listed for a directory entry and the information
    [Deno.stat] gives on it. *)
Definition listed (entry : DirEntry) (info : FileInfo) : FileEntry :=
  mkFileEntry (entry_name entry) (entry_isFile entry) (entry_isDirectory entry)
    (size info) (mtime info).

(** The check of a directory entry, answered with [info]. *)
Definition entry_check (workspacePath : string) (entry : DirEntry) (info : FileInfo)
  : io :=
  IoStat (workspacePath +:+ "/" +:+ entry_name entry) (Ok info).

(** * Facts *)

(** ** Strings *)

Section StringFacts.

Lemma string_ind2 (P : string -> Prop) :
  P EmptyString ->
  (forall c, P (String c EmptyString)) ->
  (forall c d s, P s -> P (String d s) -> P (String c (String d s))) ->
  forall s, P s.
Proof.
  intros H0 H1 H2 s.
  assert (P s /\ forall c, P (String c s)) as [Hs _]; [|exact Hs].
  induction s as [|d s [IHs IHc]]; split; auto.
Qed.

Lemma starts_with_app a b : starts_with a (a +:+ b) = true.
Proof.
  induction a as [|c a IH]; simpl; [reflexivity|].
  now rewrite Ascii.eqb_refl, IH.
Qed.

Lemma starts_with_includes needle hay :
  starts_with needle hay = true -> includes needle hay = true.
Proof. intros H. destruct hay; simpl in *; now rewrite H. Qed.

Lemma includes_cons needle c hay :
  includes needle hay = true -> includes needle (String c hay) = true.
Proof. intros H. simpl. rewrite H. apply orb_true_r. Qed.

Lemma strip_dotdot_other c s :
  c <> "."%char -> strip_dotdot (String c s) = String c (strip_dotdot s).
Proof.
  intros Hc. simpl.
  destruct c as [[] [] [] [] [] [] [] []]; try reflexivity.
  now contradiction Hc.
Qed.

Lemma strip_dotdot_dot_other d s :
  d <> "."%char ->
  strip_dotdot (String "." (String d s)) = String "." (String d (strip_dotdot s)).
Proof.
  intros Hd.
  change (strip_dotdot (String "." (String d s)))
    with (match d with
          | "."%char => strip_dotdot s
          | _ => String "." (strip_dotdot (String d s))
          end).
  rewrite (strip_dotdot_other d s Hd).
  destruct d as [[] [] [] [] [] [] [] []]; try reflexivity.
  now contradiction Hd.
Qed.

(** What is left after the removal holds no [".."]. *)
Lemma strip_dotdot_clean s : includes ".." (strip_dotdot s) = false.
Proof.
  induction s as [|c|c d s IHs IHd] using string_ind2.
  - reflexivity.
  - destruct (Ascii.eqb_spec c ".") as [->|Hc]; [reflexivity|].
    rewrite strip_dotdot_other by assumption. cbn [includes starts_with].
    destruct (Ascii.eqb_spec "." c); [congruence|reflexivity].
  - destruct (Ascii.eqb_spec c ".") as [->|Hc].
    + destruct (Ascii.eqb_spec d ".") as [->|Hd]; [exact IHs|].
      rewrite strip_dotdot_dot_other by assumption.
      rewrite strip_dotdot_other in IHd by assumption.
      cbn [includes starts_with] in *.
      destruct (Ascii.eqb_spec "." d); [congruence|].
      rewrite andb_false_r. exact IHd.
    + rewrite strip_dotdot_other by assumption.
      cbn [includes starts_with].
      destruct (Ascii.eqb_spec "." c); [congruence|]. exact IHd.
Qed.

Lemma includes_dotdot_slash a b :
  includes ".." (a +:+ String "/" b) = includes ".." a || includes ".." b.
Proof.
  induction a as [|c a IH].
  - reflexivity.
  - change (String c a +:+ String "/" b) with (String c (a +:+ String "/" b)).
    cbn [includes]. rewrite IH, orb_assoc. f_equal. f_equal.
    cbn [starts_with]. destruct (Ascii.eqb "." c); [|reflexivity].
    destruct a as [|d a]; [reflexivity|].
    change (String d a +:+ String "/" b) with (String d (a +:+ String "/" b)).
    cbn [starts_with]. reflexivity.
Qed.

Lemma includes_dotdot_plain a b :
  plain a = true -> includes ".." (a +:+ b) = includes ".." b.
Proof.
  induction a as [|c a IH]; intros Hp; [reflexivity|].
  change (String c a +:+ b) with (String c (a +:+ b)).
  cbn [plain] in Hp. apply andb_prop in Hp as [Hc Ha]. apply andb_prop in Hc as [Hc _].
  cbn [includes starts_with]. rewrite (IH Ha).
  rewrite Ascii.eqb_sym. apply negb_true_iff in Hc. now rewrite Hc.
Qed.

(** The first component of a path starts the path, and every component
    occurs in it. *)
Lemma segments_head s : exists seg more,
  segments s = seg :: more /\ starts_with seg s = true.
Proof.
  induction s as [|c s (seg & more & Hs & Hp)].
  - now exists EmptyString, [].
  - cbn [segments]. destruct (Ascii.eqb c "/").
    + now exists EmptyString, (segments s).
    + rewrite Hs. exists (String c seg), more. split; [reflexivity|].
      cbn [starts_with]. now rewrite Ascii.eqb_refl.
Qed.

Lemma segments_includes s seg : In seg (segments s) -> includes seg s = true.
Proof.
  revert seg. induction s as [|c s IH]; intros seg Hin.
  - destruct Hin as [<-|[]]. reflexivity.
  - cbn [segments] in Hin. destruct (Ascii.eqb c "/").
    + destruct Hin as [<-|Hin]; [reflexivity|]. apply includes_cons, IH, Hin.
    + destruct (segments_head s) as (seg0 & more & Hs & Hp).
      rewrite Hs in Hin, IH. destruct Hin as [<-|Hin].
      * apply starts_with_includes. cbn [starts_with].
        now rewrite Ascii.eqb_refl.
      * apply includes_cons, IH. now right.
Qed.

Lemma no_dotdot_segment s : includes ".." s = false -> ~ In ".." (segments s).
Proof. intros H Hin. apply segments_includes in Hin. congruence. Qed.

Lemma strip_trailing_slashes_id s :
  s <> EmptyString -> includes "/" s = false ->
  strip_trailing_slashes s = s.
Proof.
  induction s as [|c s IH]; [congruence|]. intros _ H.
  cbn [includes starts_with] in H. apply orb_false_elim in H as [Hc Hs].
  rewrite andb_true_r, Ascii.eqb_sym in Hc.
  cbn [strip_trailing_slashes]. destruct s as [|d s].
  - simpl. now rewrite Hc.
  - rewrite IH by (congruence || assumption). reflexivity.
Qed.

Lemma hex_char_plain d : plain (String (hex_char d) EmptyString) = true.
Proof.
  unfold hex_char.
  destruct (nth_in_or_default (N.to_nat d)
              (list_ascii_of_string "0123456789abcde") "f"%char) as [Hin| ->];
    [|reflexivity].
  cbn [list_ascii_of_string] in *.
  repeat (destruct Hin as [<-|Hin]; [reflexivity|]). destruct Hin.
Qed.

Lemma uuid_render_plain i digits : plain (uuid_render i digits) = true.
Proof.
  revert i. induction digits as [|d more IH]; intros i; [reflexivity|].
  cbn [uuid_render]. pose proof (hex_char_plain d) as Hd. cbn [plain] in Hd.
  rewrite andb_true_r in Hd.
  destruct (dash_before i); cbn [plain]; rewrite Hd, IH; reflexivity.
Qed.

End StringFacts.

(** ** Running programs *)

Section Runs.

Context {W : Type} (h : handler W).


End Runs.

(** ** The logic of runs *)

Section Logic.

Lemma wp_mono {R} (p : prog R) (Q Q' : list io -> R -> Prop) :
  (forall tr r, Q tr r -> Q' tr r) -> wp p Q -> wp p Q'.
Proof.
  revert Q Q'. induction p as [r|X e k IH]; intros Q Q' HQ; simpl.
  - apply HQ.
  - intros Hp x. eapply IH; [|apply Hp]. intros tr r. apply HQ.
Qed.

Lemma wp_bind {A B} (p : prog A) (f : A -> prog B) (Q : list io -> B -> Prop) :
  wp p (fun tr a => wp (f a) (fun tr' b => Q (tr ++ tr')%list b)) ->
  wp (bind p f) Q.
Proof.
  revert Q. induction p as [a|X e k IH]; intros Q; simpl.
  - trivial.
  - intros Hp x. apply IH, Hp.
Qed.

Lemma wp_sound {W R} (h : handler W) (p : prog R) (Q : list io -> R -> Prop) (w : W) :
  wp p Q -> Q (trace (interp h p w)) (returned (interp h p w)).
Proof.
  revert Q w. induction p as [r|X e k IH]; intros Q w; simpl.
  - trivial.
  - intros Hp. apply (IH _ (fun tr r => Q (log e (h X e w).1 :: tr) r)), Hp.
Qed.

Lemma always_ret {R} (P : io -> Prop) (r : R) : always P (Ret r).
Proof. constructor. Qed.

Lemma always_vis {R X} (P : io -> Prop) (e : event X) (k : X -> prog R) :
  (forall x, P (log e x)) -> (forall x, always P (k x)) ->
  always P (Vis e k).
Proof.
  intros He Hk x. eapply wp_mono; [|apply Hk].
  intros tr r Htr. constructor; [apply He|exact Htr].
Qed.

Lemma always_bind {A B} (P : io -> Prop) (p : prog A) (f : A -> prog B) :
  always P p -> (forall a, always P (f a)) -> always P (bind p f).
Proof.
  intros Hp Hf. apply wp_bind. eapply wp_mono; [|exact Hp].
  intros tr a Htr. eapply wp_mono; [|apply Hf].
  intros tr' b Htr'. apply Forall_app. now split.
Qed.

Lemma always_sound {W R} (h : handler W) (P : io -> Prop) (p : prog R) (w : W) :
  always P p -> Forall P (trace (interp h p w)).
Proof. intros Hp. apply (wp_sound h p _ w Hp). Qed.

End Logic.

(** ** The paths the handlers build *)

Section Paths.

Lemma append_assoc (a b c : string) : (a +:+ b) +:+ c = a +:+ b +:+ c.
Proof.
  induction a as [|x a IH]; [reflexivity|].
  change (String x ((a +:+ b) +:+ c) = String x (a +:+ b +:+ c)). now f_equal.
Qed.

Lemma valid_workspace_inv name :
  valid_workspace name = true ->
  name <> "" /\ includes ".." name = false /\ includes "/" name = false
  /\ includes "\" name = false.
Proof.
  unfold valid_workspace, has_traversal. intros H.
  apply negb_true_iff in H.
  apply orb_false_elim in H as [Hn H]. apply orb_false_elim in H as [H Hb].
  apply orb_false_elim in H as [Hd Hs].
  repeat split; try assumption.
  intros ->. discriminate.
Qed.

Lemma includes_dotdot_workspace name :
  includes ".." ("./" +:+ name) = includes ".." name.
Proof. reflexivity. Qed.

(** A name without [".."] appended to a workspace directory gives a path
    confined to that directory. *)
Lemma confined_below name x :
  includes ".." name = false -> includes ".." x = false ->
  confined ("./" +:+ name) (("./" +:+ name) +:+ "/" +:+ x).
Proof.
  intros Hn Hx. split.
  - rewrite <- append_assoc. apply starts_with_app.
  - apply no_dotdot_segment.
    change ("/" +:+ x) with (String "/" x).
    now rewrite includes_dotdot_slash, includes_dotdot_workspace, Hn, Hx.
Qed.

Lemma strip_trailing_slashes_cons c s :
  s <> "" -> strip_trailing_slashes s = s ->
  strip_trailing_slashes (String c s) = String c s.
Proof.
  intros Hs Heq. cbn [strip_trailing_slashes]. rewrite Heq.
  destruct s; [congruence|reflexivity].
Qed.

Lemma strip_trailing_slashes_workspace name :
  valid_workspace name = true ->
  strip_trailing_slashes ("./" +:+ name) = "./" +:+ name.
Proof.
  intros H. apply valid_workspace_inv in H as (Hn & _ & Hs & _).
  change ("./" +:+ name) with (String "." (String "/" name)).
  apply strip_trailing_slashes_cons; [discriminate|].
  apply strip_trailing_slashes_cons; [assumption|].
  now apply strip_trailing_slashes_id.
Qed.

Lemma scriptName_clean scriptId : includes ".." (scriptName scriptId) = false.
Proof.
  unfold scriptName.
  rewrite (includes_dotdot_plain "sandbox_") by reflexivity.
  rewrite includes_dotdot_plain by apply uuid_render_plain.
  reflexivity.
Qed.

Lemma scriptPath_confined name scriptId :
  valid_workspace name = true ->
  confined ("./" +:+ name) (scriptPath ("./" +:+ name) scriptId).
Proof.
  intros H. unfold scriptPath. rewrite strip_trailing_slashes_workspace by assumption.
  apply valid_workspace_inv in H as (_ & Hd & _).
  apply confined_below; [assumption|apply scriptName_clean].
Qed.

Lemma scriptPath_nonempty workspace scriptId :
  String.eqb (scriptPath workspace scriptId) "" = false.
Proof.
  unfold scriptPath. destruct (strip_trailing_slashes workspace); reflexivity.
Qed.

Lemma command_args_eq workspace memoryLimit script :
  String.eqb script "" = false ->
  command_args workspace memoryLimit script =
  ([ "run"; "--no-remote"; "--no-npm";
     "--allow-read=" +:+ workspace; "--allow-write=" +:+ workspace ]
   ++ (if Z.eqb memoryLimit 0 then []
       else ["--v8-flags=--max-old-space-size=" +:+ pretty memoryLimit])
   ++ [script])%list.
Proof.
  intros Hs. unfold command_args. cbn [List.filter truthy].
  change (String.eqb "run" "") with false.
  change (String.eqb "--no-remote" "") with false.
  change (String.eqb "--no-npm" "") with false.
  change (String.eqb ("--allow-read=" +:+ workspace) "") with false.
  change (String.eqb ("--allow-write=" +:+ workspace) "") with false.
  rewrite Hs. cbn [negb].
  destruct (Z.eqb memoryLimit 0); reflexivity.
Qed.

Lemma command_args_script workspace memoryLimit script :
  String.eqb script "" = false ->
  last (command_args workspace memoryLimit script) = Some script.
Proof.
  intros Hs. rewrite command_args_eq by assumption.
  rewrite !app_assoc. apply last_snoc.
Qed.

End Paths.

(** ** The workspace validator *)

Lemma api_rejects (name : string) (ep : endpoint) :
  valid_workspace name = false ->
  api name ep = Ret (json (ErrorJson "Invalid workspace name" None) 400).
Proof.
  unfold valid_workspace, api. intros H. apply negb_false_iff in H.
  now rewrite H.
Qed.

Lemma api_accepts (name : string) (ep : endpoint) :
  valid_workspace name = true ->
  api name ep =
  match ep with
  | PostCreate => create ("./" +:+ name)
  | PostExecute body => execute ("./" +:+ name) body
  | PostFiles body => files ("./" +:+ name) body
  | GetDownload filename => download ("./" +:+ name) filename
  | Unrouted => Ret (mkResponse 404 NotFoundText)
  end.
Proof.
  unfold valid_workspace, api. intros H. apply negb_true_iff in H.
  now rewrite H.
Qed.

(** ** Confinement of the paths *)

Section Confinement.

Variable name : string.
Hypothesis Hvalid : valid_workspace name = true.

Let dir := "./" +:+ name.

Lemma path_ok_dir (c : io) : io_paths c = [dir] -> path_ok dir c.
Proof. intros Hc p. rewrite Hc. intros [<-|[]]. now left. Qed.

Lemma path_ok_none (c : io) : io_paths c = [] -> path_ok dir c.
Proof. intros Hc p. rewrite Hc. intros []. Qed.

Lemma path_ok_below (c : io) (x : string) :
  io_paths c = [dir +:+ "/" +:+ x] -> includes ".." x = false -> path_ok dir c.
Proof.
  intros Hc Hx p. rewrite Hc. intros [<-|[]]. right.
  apply valid_workspace_inv in Hvalid as (_ & Hd & _).
  now apply confined_below.
Qed.

Lemma path_ok_script (c : io) (scriptId : list N) :
  io_paths c = [scriptPath dir scriptId] -> path_ok dir c.
Proof.
  intros Hc p. rewrite Hc. intros [<-|[]]. right.
  now apply scriptPath_confined.
Qed.

Lemma run_sandbox_confined (src : string) (t m : Z) :
  always (path_ok dir) (run_sandbox (mkOptions src dir t m)).
Proof.
  unfold run_sandbox. cbn [workspace code timeout memoryLimit].
  apply always_vis; intros st; [now apply path_ok_dir|].
  apply always_bind.
  - destruct st; [apply always_ret|].
    apply always_vis; intros; [now apply path_ok_dir|apply always_ret].
  - intros [made|e]; cbv beta iota; [|apply always_ret].
    apply always_vis; intros scriptId; [now apply path_ok_none|].
    apply always_vis; intros [written|e]; try apply always_ret;
      try (now apply (path_ok_script _ scriptId)).
    apply always_vis; intros reply.
    + apply (path_ok_script _ scriptId). cbn [log io_paths].
      now rewrite command_args_script by apply scriptPath_nonempty.
    + apply always_vis; intros; [|apply always_ret].
      now apply (path_ok_script _ scriptId).
Qed.

Lemma execute_confined (body : result ExecuteBody) :
  always (path_ok dir) (execute dir body).
Proof.
  unfold execute. destruct body as [b|e]; [|apply always_ret].
  repeat match goal with
         | |- always _ (if ?b then _ else _) => destruct b; [apply always_ret|]
         end.
  apply always_bind; [apply run_sandbox_confined|].
  intros [r|e]; apply always_ret.
Qed.

Lemma create_confined : always (path_ok dir) (create dir).
Proof.
  unfold create.
  apply always_vis; intros st; [now apply path_ok_dir|].
  destruct st; [apply always_ret|].
  apply always_vis; intros made; [now apply path_ok_dir|].
  destruct made; apply always_ret.
Qed.

Lemma download_confined (filename : option string) :
  always (path_ok dir) (download dir filename).
Proof.
  unfold download.
  destruct (falsy filename); [apply always_ret|].
  destruct (has_traversal (default "" filename)) eqn:Ht; [apply always_ret|].
  unfold has_traversal in Ht.
  apply orb_false_elim in Ht as [Ht _]. apply orb_false_elim in Ht as [Hd _].
  apply always_vis; intros st; [now apply (path_ok_below _ (default "" filename))|].
  destruct st as [info|e]; [|apply always_ret].
  destruct (negb (isFile info)); [apply always_ret|].
  apply always_vis; intros opened; [now apply (path_ok_below _ (default "" filename))|].
  destruct opened; [|apply always_ret].
  apply always_vis; intros; [|apply always_ret].
  now apply (path_ok_below _ (default "" filename)).
Qed.

Lemma filePath_eq (f : string) :
  String.eqb f "" = false ->
  filePath dir (Some f) = Some (dir +:+ "/" +:+ strip_dotdot f).
Proof. intros Hf. unfold filePath. now rewrite Hf. Qed.

Lemma files_action_confined (action : string) (filename content : option string) :
  String.eqb action "list" = false ->
  always (path_ok dir) (files_action dir action filename content).
Proof.
  intros Hlist. unfold files_action. rewrite Hlist.
  destruct filename as [f|]; [destruct (String.eqb f "") eqn:Hf|].
  2: { rewrite filePath_eq by assumption.
       cbn [falsy default]. rewrite Hf.
       change (String.eqb (dir +:+ "/" +:+ strip_dotdot f) "") with false.
       cbn [orb].
       repeat match goal with
              | |- always _ (if ?b then _ else _) => destruct b
              | |- always _ (match ?x with _ => _ end) => destruct x
              | |- always _ (Ret _) => apply always_ret
              | |- always _ (bind (call _) _) => apply always_vis; intros ?
              | |- path_ok _ _ =>
                  apply (path_ok_below _ (strip_dotdot f));
                  [reflexivity|apply strip_dotdot_clean]
              end. }
  all: cbn [falsy filePath]; rewrite ?Hf; cbn [orb];
    repeat match goal with
           | |- always _ (if ?b then _ else _) => destruct b
           | |- always _ (match ?x with _ => _ end) => destruct x
           | |- always _ (Ret _) => apply always_ret
           end.
Qed.

Lemma files_confined (body : result FilesBody) :
  lists_directory (PostFiles body) = false ->
  always (path_ok dir) (files dir body).
Proof.
  intros Hlist. unfold files. destruct body as [b|e]; [|apply always_ret].
  destruct (falsy (fb_action b)); [apply always_ret|].
  apply always_vis; intros st; [now apply path_ok_dir|].
  destruct st; [|apply always_ret].
  now apply files_action_confined.
Qed.

Lemma api_confined (ep : endpoint) :
  lists_directory ep = false ->
  always (path_ok dir) (api name ep).
Proof.
  intros Hlist. rewrite api_accepts by assumption.
  destruct ep.
  - apply create_confined.
  - apply execute_confined.
  - now apply files_confined.
  - apply download_confined.
  - apply always_ret.
Qed.

End Confinement.

(** ** The runs of [run_sandbox] and of the execute handler *)

Lemma run_sandbox_runs (o : RunSandboxOptions) :
  wp (run_sandbox o) (sandbox_run o).
Proof.
  unfold run_sandbox. simpl. intros [info|e0].
  - simpl. intros scriptId [[]|e].
    + intros reply removed.
      apply (run_child o [IoStat (workspace o) (Ok info)]). left. eauto.
    + apply (run_no_script o [IoStat (workspace o) (Ok info)]). left. eauto.
  - simpl. intros [[]|e].
    + simpl. intros scriptId [[]|e].
      * intros reply removed.
        apply (run_child o [IoStat (workspace o) (Throw e0);
                            IoMkdir (workspace o) true (Ok tt)]). right. eauto.
      * apply (run_no_script o [IoStat (workspace o) (Throw e0);
                                IoMkdir (workspace o) true (Ok tt)]). right. eauto.
    + apply run_no_directory.
Qed.

Lemma run_sandbox_sound {W} (h : handler W) (w : W) (o : RunSandboxOptions) :
  sandbox_run o (trace (interp h (run_sandbox o) w))
    (returned (interp h (run_sandbox o) w)).
Proof. apply wp_sound, run_sandbox_runs. Qed.

(** The child process of a run and how it ended. *)
Lemma sandbox_run_command o tr r cmd args t reply :
  sandbox_run o tr r ->
  In (IoCommand cmd args t reply) tr ->
  exists scriptId,
    cmd = "deno"
    /\ args = command_args (workspace o) (memoryLimit o)
                (scriptPath (workspace o) scriptId)
    /\ t = timeout o
    /\ r = Ok (classify reply).
Proof.
  intros Hrun Hin. destruct Hrun as [e0 e|pre scriptId e Hpre|pre scriptId rp removed Hpre].
  - simpl in Hin. destruct Hin as [H|[H|[]]]; discriminate H.
  - apply in_app_or in Hin as [Hin|Hin].
    + destruct Hpre as [[info ->]|[e1 ->]]; simpl in Hin;
        repeat (destruct Hin as [H|Hin]; [discriminate H|]); destruct Hin.
    + simpl in Hin. destruct Hin as [H|[H|[]]]; discriminate H.
  - apply in_app_or in Hin as [Hin|Hin].
    + destruct Hpre as [[info ->]|[e1 ->]]; simpl in Hin;
        repeat (destruct Hin as [H|Hin]; [discriminate H|]); destruct Hin.
    + simpl in Hin. destruct Hin as [H|[H|[H|[H|[]]]]]; try discriminate H.
      injection H as <- <- <- <-. now exists scriptId.
Qed.

Lemma execute_refused (workspace : string) (b : ExecuteBody) :
  accepted b = false ->
  exists msg, execute workspace (Ok b) = Ret (json (ErrorJson msg None) 400).
Proof.
  unfold accepted, execute. intros H.
  destruct (truthy (eb_code b)); cbn [negb orb andb] in *; [|eauto].
  destruct (typeof_string (eb_code b)); cbn [negb orb andb] in *; [|eauto].
  destruct (_ || _); cbn [negb andb] in *; [eauto|].
  destruct (_ || _); cbn [negb andb] in *; [eauto|discriminate].
Qed.

Lemma execute_accepted (workspace : string) (b : ExecuteBody) :
  accepted b = true ->
  wp (execute workspace (Ok b))
    (fun tr resp =>
       exists x, sandbox_run (execute_options workspace b) tr x
                 /\ resp = execute_response x).
Proof.
  unfold accepted, execute. intros H.
  destruct (truthy (eb_code b)); cbn [negb orb andb] in *; [|discriminate].
  destruct (typeof_string (eb_code b)); cbn [negb orb andb] in *; [|discriminate].
  destruct (_ || _); cbn [negb andb] in *; [discriminate|].
  destruct (_ || _); cbn [negb andb] in *; [discriminate|].
  apply wp_bind. eapply wp_mono; [|apply run_sandbox_runs].
  intros tr x Hrun. destruct x as [res|e]; simpl; rewrite app_nil_r; eauto.
Qed.

Lemma accepted_bounds (b : ExecuteBody) :
  accepted b = true ->
  (exists src, eb_code b = JString src /\ src <> "")
  /\ 100 <= default 5000 (eb_timeout b) <= 30000
  /\ 10 <= default 50 (eb_memoryLimit b) <= 500.
Proof.
  unfold accepted. intros H.
  apply andb_prop in H as [H Hm]. apply andb_prop in H as [H Ht].
  apply andb_prop in H as [Hc Hs].
  apply negb_true_iff, orb_false_elim in Hm as [Hm1 Hm2].
  apply negb_true_iff, orb_false_elim in Ht as [Ht1 Ht2].
  split; [|lia].
  destruct (eb_code b) as [| | | |src|]; try discriminate.
  exists src. split; [reflexivity|]. intros ->. discriminate.
Qed.

(** ** Removal in the file system of [World] *)

Section WorldFacts.

Lemma remove_absent (fs : gmap (list string) World.node) (path : string) :
  (World.remove fs path).1 = Ok tt ->
  (World.remove fs path).2 !! World.resolve path = None.
Proof.
  unfold World.remove.
  destruct (fs !! World.resolve path) as [n|] eqn:Hn; [|discriminate].
  destruct (fs !! World.parent (World.resolve path)) as [[content|[|]]|];
    cbn [fst snd]; try discriminate;
    destruct n as [content'|writable];
    try destruct (World.entries_of fs (World.resolve path));
    cbn [fst snd]; try discriminate; intros _; apply lookup_delete_eq.
Qed.

Lemma interp_no_call {W R} (h : handler W) (p : prog R) (w : W) :
  trace (interp h p w) = [] -> final (interp h p w) = w.
Proof. destruct p; [reflexivity|discriminate]. Qed.

(** In the file system of [World], a run whose last call is a removal that
    succeeded ends with nothing at the removed path. *)
Lemma last_remove_absent {R} (p : prog R) (w : World.world) (path : string) :
  last (trace (interp World.h p w)) = Some (IoRemove path (Ok tt)) ->
  World.present (final (interp World.h p w)) path = false.
Proof.
  revert w. induction p as [r|X e k IH]; intros w; [discriminate|].
  cbn [interp trace final].
  destruct (trace (interp World.h (k (World.h X e w).1) (World.h X e w).2)) eqn:Htr.
  - cbn [last]. rewrite (interp_no_call _ _ _ Htr). clear Htr IH.
    destruct e; cbn [log World.h fst snd]; try discriminate.
    intros Hlast. injection Hlast as -> Hok.
    unfold World.present, World.with_fs. cbn [World.w_fs].
    rewrite (remove_absent _ _ Hok). apply bool_decide_eq_false. now intros [x Hx].
  - rewrite last_cons_cons. rewrite <- Htr. apply IH.
Qed.

End WorldFacts.

(** ** Opening the files handler *)

Ltac by_wp :=
  match goal with
  | |- context [interp ?h ?p ?w] =>
      pattern (trace (interp h p w)), (returned (interp h p w));
      apply (wp_sound h p _ w)
  end.

Lemma path_nonempty (workspacePath x : string) :
  String.eqb (workspacePath +:+ "/" +:+ x) "" = false.
Proof. destruct workspacePath; reflexivity. Qed.

Ltac open_files Hf :=
  unfold files, files_action, filePath;
  cbn [fb_action fb_filename fb_content falsy undefined default from_option id
       String.eqb Ascii.eqb Bool.eqb negb orb];
  rewrite Hf;
  cbn [falsy undefined default from_option id orb];
  rewrite ?path_nonempty;
  cbn [orb].

(** ** The authentication middleware *)

Lemma starts_with_slice (prefix s : string) :
  starts_with prefix s = true ->
  s = prefix +:+ slice (String.length prefix) s.
Proof.
  revert s. induction prefix as [|c prefix IH]; intros s H; [reflexivity|].
  destruct s as [|d s]; [discriminate|].
  cbn [starts_with] in H. apply andb_prop in H as [Hc Hs].
  apply Ascii.eqb_eq in Hc as ->.
  change (String d s = String d (prefix +:+ slice (String.length prefix) s)).
  f_equal. now apply IH.
Qed.

(** The middleware either hands the request on or answers 401 itself. *)
Lemma auth_passes (MASTER_KEY authHeader : option string) (next : prog response) :
  authorized MASTER_KEY authHeader -> auth MASTER_KEY authHeader next = next.
Proof.
  unfold auth. intros [Hk|(key & -> & Hh)]; [now rewrite Hk|].
  cbn [falsy default from_option id].
  destruct (String.eqb_spec key "") as [->|Hkey]; [reflexivity|].
  destruct Hh as [->|[-> Hs]]; cbn [falsy default from_option id].
  - change (String.eqb ("Bearer " +:+ key) "") with false.
    rewrite starts_with_app.
    change (slice 7 ("Bearer " +:+ key)) with key.
    now rewrite String.eqb_refl.
  - destruct (String.eqb_spec key ""); [contradiction|].
    rewrite Hs. now rewrite String.eqb_refl.
Qed.

Lemma auth_rejects (MASTER_KEY authHeader : option string) (next : prog response) :
  ~ authorized MASTER_KEY authHeader ->
  exists msg, auth MASTER_KEY authHeader next = Ret (json (ErrorJson msg None) 401).
Proof.
  intros Hno. unfold auth.
  destruct (falsy MASTER_KEY) eqn:Hk; [contradiction Hno; now left|].
  destruct MASTER_KEY as [key|]; [|discriminate].
  destruct (falsy authHeader) eqn:Hh; [eauto|].
  destruct authHeader as [header|]; [|discriminate].
  cbn [default from_option id].
  destruct (String.eqb_spec
              (if starts_with "Bearer " header then slice 7 header else header) key)
    as [Heq|Hne]; [|cbn; eauto].
  contradiction Hno. right. exists key. split; [reflexivity|].
  destruct (starts_with "Bearer " header) eqn:Hs.
  - left. f_equal. rewrite <- Heq. exact (starts_with_slice "Bearer " header Hs).
  - right. subst key. auto.
Qed.

Lemma auth_cases (MASTER_KEY authHeader : option string) (next : prog response) :
  auth MASTER_KEY authHeader next = next
  \/ exists msg, auth MASTER_KEY authHeader next = Ret (json (ErrorJson msg None) 401).
Proof.
  unfold auth. destruct (falsy MASTER_KEY); [now left|].
  destruct (falsy authHeader); [right; eauto|].
  destruct (negb _); [right; eauto|now left].
Qed.

(** ** The file system of [World] *)

Section RoundTrips.

Implicit Types fs : gmap (list string) World.node.

Lemma writeTextFile_ok fs path data fs' :
  World.writeTextFile fs path data = (Ok tt, fs') ->
  fs' = <[World.resolve path := World.File data]> fs.
Proof.
  unfold World.writeTextFile, World.add_entry.
  destruct (fs !! World.resolve path) as [[content|writable]|].
  - now intros [= <-].
  - discriminate.
  - destruct (fs !! World.parent (World.resolve path)) as [[content|[|]]|];
      try discriminate. now intros [= <-].
Qed.

Lemma remove_ok fs path fs' :
  World.remove fs path = (Ok tt, fs') -> fs' = delete (World.resolve path) fs.
Proof.
  unfold World.remove.
  destruct (fs !! World.resolve path) as [n|]; [|discriminate].
  destruct (fs !! World.parent (World.resolve path)) as [[content|[|]]|];
    try discriminate;
    destruct n as [content'|writable];
    try destruct (World.entries_of fs (World.resolve path));
    try discriminate; now intros [= <-].
Qed.

Lemma stat_insert fs path q n info :
  World.stat fs path = Ok info ->
  exists info', World.stat (<[q := n]> fs) path = Ok info'.
Proof.
  unfold World.stat. rewrite lookup_insert.
  destruct (decide (q = World.resolve path)) as [_|_].
  - intros _. destruct n; eauto.
  - destruct (fs !! World.resolve path) as [[content|writable]|]; eauto;
      discriminate.
Qed.


End RoundTrips.

(** * The claims *)

(** ** File names *)

(** C1, as the code has it.  The download endpoint answers 400, without
    any call to the runtime, when the file name is missing or empty or
    contains [".."], a slash or a backslash.  The files endpoint, for every
    action but [list], answers 400 when the file name is missing or empty,
    after the check of the workspace directory and no other call (404 when
    that check fails).  A non-empty file name is not rejected by the
    actions [read], [create], [update] and [delete], whatever it contains:
    every [".."] is taken out of it, and the call that follows the check of
    the workspace directory is made on the workspace path extended by a
    slash and what is left of the name, in which no [".."] remains. *)
Theorem filename_handling {W} (h : handler W) (w : W) (workspacePath : string) :
  (forall filename,
     falsy filename = true \/ has_traversal (default "" filename) = true ->
     let r := interp h (download workspacePath filename) w in
     status (returned r) = 400 /\ trace r = [])
  /\ (forall action filename content,
        action <> "" -> action <> "list" -> falsy filename = true ->
        let r := interp h (files workspacePath
                             (Ok (mkFilesBody (Some action) filename content))) w in
        exists st,
          trace r = [IoStat workspacePath st]
          /\ status (returned r) = if is_Ok st then 400 else 404)
  /\ (forall action f content info,
        In action ["read"; "create"; "update"; "delete"] ->
        f <> "" ->
        (content = None -> action = "read" \/ action = "delete") ->
        let r := interp h (files workspacePath
                             (Ok (mkFilesBody (Some action) (Some f) content))) w in
        head (trace r) = Some (IoStat workspacePath (Ok info)) ->
        exists c,
          trace r !! 1%nat = Some c
          /\ io_paths c = [workspacePath +:+ "/" +:+ strip_dotdot f]
          /\ includes ".." (strip_dotdot f) = false).
Proof.
  split; [|split].
  - intros filename Hbad r. subst r. unfold download.
    destruct (falsy filename); [now cbn|].
    destruct Hbad as [Hbad|Hbad]; [discriminate|]. rewrite Hbad. now cbn.
  - intros action filename content Ha Hlist Hname r. subst r.
    apply String.eqb_neq in Ha, Hlist.
    unfold files. cbn [fb_action fb_filename fb_content falsy default from_option id].
    rewrite Ha. by_wp. simpl. intros [info|e]; simpl; [|eauto].
    unfold files_action. rewrite Hlist, Hname. cbn [orb].
    repeat match goal with
           | |- wp (if ?b then _ else _) _ => destruct b
           | |- wp (match ?x with _ => _ end) _ => destruct x
           end; simpl; eauto.
  - intros action f content info Ha Hf Hcontent r. subst r.
    apply String.eqb_neq in Hf.
    rewrite (strip_dotdot_clean f).
    cbn [In] in Ha. destruct Ha as [<-|[<-|[<-|[<-|[]]]]]; by_wp; open_files Hf.
    + simpl. intros [info0|e0]; simpl; [|discriminate].
      intros x. destruct x; simpl; intros _; eexists; repeat split.
    + destruct content as [data|];
        [|destruct (Hcontent eq_refl) as [H|H]; discriminate H].
      simpl. intros [info0|e0]; simpl; [|discriminate].
      intros x. destruct x; simpl; intros _; eexists; repeat split.
    + destruct content as [data|];
        [|destruct (Hcontent eq_refl) as [H|H]; discriminate H].
      simpl. intros [info0|e0]; simpl; [|discriminate].
      intros [info1|e1]; simpl.
      * intros x. destruct x; simpl; intros _; eexists; repeat split.
      * intros _. eexists. repeat split.
    + simpl. intros [info0|e0]; simpl; [|discriminate].
      intros x. destruct x as [|e1]; simpl; [|destruct (is_NotFound e1); simpl];
        intros _; eexists; repeat split.
Qed.

Lemma filename_handling_witness :
  (status (returned (interp World.h (download "./ws" (Some "../deno.json"))
                       (Demo.world Demo.child_ok))) = 400
   /\ trace (interp World.h (download "./ws" (Some "../deno.json"))
               (Demo.world Demo.child_ok)) = [])
  /\ (exists st,
        trace (interp World.h
                 (files "./ws" (Ok (mkFilesBody (Some "delete") (Some "") None)))
                 (Demo.world Demo.child_ok)) = [IoStat "./ws" st]
        /\ status (returned (interp World.h
                               (files "./ws" (Ok (mkFilesBody (Some "delete") (Some "") None)))
                               (Demo.world Demo.child_ok)))
           = if is_Ok st then 400 else 404)
  /\ (exists c,
        trace (interp World.h
                 (files "./ws" (Ok (mkFilesBody (Some "read") (Some "../deno.json") None)))
                 (Demo.world Demo.child_ok)) !! 1%nat = Some c
        /\ io_paths c = ["./ws" +:+ "/" +:+ strip_dotdot "../deno.json"]
        /\ includes ".." (strip_dotdot "../deno.json") = false).
Proof.
  split; [|split].
  - apply (proj1 (filename_handling World.h (Demo.world Demo.child_ok) "./ws")
             (Some "../deno.json")).
    right. reflexivity.
  - apply (proj1 (proj2 (filename_handling World.h (Demo.world Demo.child_ok) "./ws"))
             "delete" (Some "") None).
    + discriminate.
    + discriminate.
    + reflexivity.
  - apply (proj2 (proj2 (filename_handling World.h (Demo.world Demo.child_ok) "./ws"))
             "read" "../deno.json" None (mkFileInfo false true 0 None)).
    + cbn. tauto.
    + discriminate.
    + intros _. now left.
    + vm_compute. reflexivity.
Defined.

(** C1 as stated fails on the files endpoint: a file name with a slash is
    not rejected, the file it names below the workspace is read and its
    content answered; a file name with [".."] in it is not rejected
    either, the file named by what is left of it is read. *)
Lemma files_accepts_slash_and_dotdot :
  (let r := interp World.h
              (api "ws" (PostFiles (Ok (mkFilesBody (Some "read") (Some "sub/x") None))))
              (Demo.world Demo.child_ok) in
   includes "/" "sub/x" = true
   /\ returned r = json (ContentJson "secret") 200
   /\ trace r !! 1%nat = Some (IoReadTextFile "./ws/sub/x" (Ok "secret")))
  /\ (let r := interp World.h
                 (api "ws" (PostFiles (Ok (mkFilesBody (Some "read") (Some "no..tes") None))))
                 (Demo.world Demo.child_ok) in
      includes ".." "no..tes" = true
      /\ returned r = json (ContentJson "hello") 200
      /\ trace r !! 1%nat = Some (IoReadTextFile "./ws/notes" (Ok "hello"))).
Proof. repeat split; vm_compute; reflexivity. Qed.

(** ** The central invariant *)

(** C2. For a request that passes the workspace validator, every path that
    a handler hands to the runtime to check, create, write, read, open,
    remove or execute (the script path of [run_sandbox], the path built by
    the files endpoint from the file name, the path of the download
    endpoint) is either the workspace directory itself or a path confined
    to it: it starts with the path of the workspace directory followed by
    a slash, and none of its components is [".."].  The [list] action,
    whose paths are made of names the directory listing yields and not of
    a caller's file name, is left aside. *)
Theorem workspace_paths_confined {W} (h : handler W) (w : W) (name : string)
    (ep : endpoint) (c : io) (p : string) :
  valid_workspace name = true ->
  lists_directory ep = false ->
  In c (trace (interp h (api name ep) w)) ->
  In p (io_paths c) ->
  p = "./" +:+ name \/ confined ("./" +:+ name) p.
Proof.
  intros Hvalid Hlist Hc Hp.
  pose proof (always_sound h _ _ w (api_confined name Hvalid ep Hlist)) as Hall.
  rewrite List.Forall_forall in Hall. exact (Hall c Hc p Hp).
Qed.

Lemma workspace_paths_confined_witness :
  "./ws/sub///x" = "./" +:+ "ws" \/ confined ("./" +:+ "ws") "./ws/sub///x".
Proof.
  apply (workspace_paths_confined World.h (Demo.world Demo.child_ok) "ws"
           (PostFiles (Ok (mkFilesBody (Some "delete") (Some "sub/../../x") None)))
           (IoRemove "./ws/sub///x" (Ok tt))).
  - reflexivity.
  - reflexivity.
  - vm_compute. right. left. reflexivity.
  - left. reflexivity.
Defined.

(** ** The workspace validator *)

(** C3, as the code has it.  A request to a path below [/api/] whose
    workspace identifier is empty or contains [".."], ["/"] or a backslash
    makes no call to the runtime, hence no storage operation, whatever
    its route: the record of the run is empty and the environment is
    left as it was.  What it is answered depends on what stops it.  A
    request the authentication middleware lets through is answered 400
    ("Invalid workspace name") when the identifier contains [".."],
    ["/"] or a backslash, and 404 when the identifier is empty, as no
    route matches then.  A request the authentication middleware does
    not let through is answered 401. *)
Theorem invalid_workspace_answer {W} (h : handler W) (w : W)
    (MASTER_KEY authHeader : option string) (name : string) (ep : endpoint) :
  name = "" \/ includes ".." name = true \/ includes "/" name = true
    \/ includes "\" name = true ->
  let r := interp h (app MASTER_KEY authHeader (Api name ep)) w in
  trace r = []
  /\ final r = w
  /\ (authorized MASTER_KEY authHeader ->
      returned r = if String.eqb name "" then mkResponse 404 NotFoundText
                   else json (ErrorJson "Invalid workspace name" None) 400)
  /\ (~ authorized MASTER_KEY authHeader -> status (returned r) = 401).
Proof.
  intros H r.
  assert (routed (Api name ep)
          = Ret (if String.eqb name "" then mkResponse 404 NotFoundText
                 else json (ErrorJson "Invalid workspace name" None) 400)) as Hrouted.
  { cbn [routed]. destruct (String.eqb_spec name "") as [_|Hne]; [reflexivity|].
    apply api_rejects. unfold valid_workspace, has_traversal. apply negb_false_iff.
    destruct H as [->|[H|[H|H]]]; [contradiction|..]; rewrite H;
      repeat rewrite ?orb_true_r, ?orb_true_l; reflexivity. }
  subst r. unfold app. rewrite Hrouted.
  split; [|split; [|split]].
  - destruct (auth_cases MASTER_KEY authHeader
                (Ret (if String.eqb name "" then mkResponse 404 NotFoundText
                      else json (ErrorJson "Invalid workspace name" None) 400)))
      as [->|[msg ->]]; reflexivity.
  - destruct (auth_cases MASTER_KEY authHeader
                (Ret (if String.eqb name "" then mkResponse 404 NotFoundText
                      else json (ErrorJson "Invalid workspace name" None) 400)))
      as [->|[msg ->]]; reflexivity.
  - intros Hyes. now rewrite auth_passes.
  - intros Hno. destruct (auth_rejects _ _ (Ret (if String.eqb name "" then mkResponse 404 NotFoundText
                      else json (ErrorJson "Invalid workspace name" None) 400)) Hno) as [msg ->].
    reflexivity.
Qed.

Lemma invalid_workspace_answer_witness :
  let r := interp World.h (app (Some "s3cret") (Some "Bearer s3cret") (Api "../etc" PostCreate))
             (Demo.world Demo.child_ok) in
  trace r = []
  /\ final r = Demo.world Demo.child_ok
  /\ (authorized (Some "s3cret") (Some "Bearer s3cret") ->
      returned r = if String.eqb "../etc" "" then mkResponse 404 NotFoundText
                   else json (ErrorJson "Invalid workspace name" None) 400)
  /\ (~ authorized (Some "s3cret") (Some "Bearer s3cret") -> status (returned r) = 401).
Proof.
  apply (invalid_workspace_answer World.h (Demo.world Demo.child_ok)
           (Some "s3cret") (Some "Bearer s3cret") "../etc" PostCreate).
  right. left. reflexivity.
Defined.

(** C3 as stated fails in two ways.  A request that does not present the
    master key is answered 401, not 400, whatever its workspace
    identifier: the authentication middleware runs first.  A request
    with an empty identifier is answered 404: no route matches it, so
    that the check of the identifier is not reached. *)
Lemma invalid_workspace_not_always_400 :
  (let r := interp World.h (app (Some "s3cret") None (Api "../etc" PostCreate))
              (Demo.world Demo.child_ok) in
   includes ".." "../etc" = true
   /\ status (returned r) = 401 /\ trace r = [])
  /\ (let r := interp World.h (app None None (Api "" PostCreate))
                 (Demo.world Demo.child_ok) in
      status (returned r) = 404 /\ trace r = []).
Proof. repeat split; vm_compute; reflexivity. Qed.

(** ** The spawned process *)

(** C4, where the code departs from it.  Whenever a request to the
    execute endpoint makes the server spawn a process, the process is
    [deno], none of its arguments grants network access, access to
    environment variables or the right to run other programs, and the
    read and the write permission are each given once, with the path of
    the workspace directory as the value.  The value is read by [deno] as
    a list of paths separated by commas, and the validator lets a comma
    through: the paths granted are the parts of the workspace path
    between its commas.  They are the workspace directory alone only
    when the identifier has no comma; for the identifier ["ws,."] they
    are [./ws] and the working directory [.], which holds every
    workspace. *)
Theorem spawned_permissions {W} (h : handler W) (w : W) (name : string)
    (body : result ExecuteBody) (cmd : string) (args : list string) (t : Z)
    (reply : CommandReply) :
  In (IoCommand cmd args t reply) (trace (interp h (api name (PostExecute body)) w)) ->
  let dir := "./" +:+ name in
  valid_workspace name = true
  /\ cmd = "deno"
  /\ Forall (fun a => grants_net_env_run a = false) args
  /\ In ("--allow-read=" +:+ dir) args
  /\ In ("--allow-write=" +:+ dir) args
  /\ permission_paths "--allow-read=" args = split_commas dir
  /\ permission_paths "--allow-write=" args = split_commas dir.
Proof.
  intros Hin.
  destruct (valid_workspace name) eqn:Hvalid;
    [|rewrite api_rejects in Hin by assumption; destruct Hin].
  rewrite api_accepts in Hin by assumption.
  destruct body as [b|e]; [|destruct Hin].
  destruct (accepted b) eqn:Hb;
    [|destruct (execute_refused ("./" +:+ name) b Hb) as [msg Hmsg];
      rewrite Hmsg in Hin; destruct Hin].
  destruct (wp_sound h _ _ w (execute_accepted ("./" +:+ name) b Hb))
    as (x & Hrun & _).
  destruct (sandbox_run_command _ _ _ _ _ _ _ Hrun Hin) as (scriptId & -> & -> & _ & _).
  apply accepted_bounds in Hb as (_ & _ & Hm).
  cbn [execute_options workspace memoryLimit].
  rewrite command_args_eq by apply scriptPath_nonempty.
  destruct (Z.eqb_spec (default 50 (eb_memoryLimit b)) 0) as [Hz|_]; [lia|].
  unfold scriptPath. rewrite strip_trailing_slashes_workspace by assumption.
  cbn [List.app]. cbv zeta.
  split; [reflexivity|]. split; [reflexivity|].
  split; [repeat constructor|].
  split; [cbn [In]; auto 10|]. split; [cbn [In]; auto 10|].
  split; (transitivity (split_commas ("./" +:+ name) ++ [])%list;
          [vm_compute; reflexivity|apply app_nil_r]).
Qed.

Lemma spawned_permissions_witness :
  let args := command_args "./ws,." 50 (scriptPath "./ws,." (repeat 0%N 32)) in
  let dir := "./" +:+ "ws,." in
  split_commas dir = ["./ws"; "."]
  /\ (valid_workspace "ws,." = true
      /\ "deno" = "deno"
      /\ Forall (fun a => grants_net_env_run a = false) args
      /\ In ("--allow-read=" +:+ dir) args
      /\ In ("--allow-write=" +:+ dir) args
      /\ permission_paths "--allow-read=" args = split_commas dir
      /\ permission_paths "--allow-write=" args = split_commas dir).
Proof.
  split; [reflexivity|].
  apply (spawned_permissions World.h (Demo.world Demo.child_ok) "ws,."
           (Ok (mkExecuteBody (JString "console.log(1)") None None))
           "deno" (command_args "./ws,." 50 (scriptPath "./ws,." (repeat 0%N 32))) 5000
           (Resolved false (mkCommandOutput true "out" ""))).
  vm_compute. right. right. right. right. left. reflexivity.
Defined.

(** The request that shows it, in the file system of [World]: the
    identifier ["ws,."] passes the validator, the process is started with the
    two permissions set to [./ws,.], and the paths granted are [./ws] and
    the working directory. *)
Example comma_grants_working_directory :
  let r := interp World.h
             (api "ws,." (PostExecute (Ok (mkExecuteBody (JString "console.log(1)") None None))))
             (Demo.world Demo.child_ok) in
  let args := [ "run"; "--no-remote"; "--no-npm"; "--allow-read=./ws,.";
                "--allow-write=./ws,."; "--v8-flags=--max-old-space-size=50";
                "./ws,./sandbox_00000000-0000-0000-0000-000000000000.ts" ] in
  trace r !! 4%nat
  = Some (IoCommand "deno" args 5000 (Resolved false (mkCommandOutput true "out" "")))
  /\ permission_paths "--allow-read=" args = ["./ws"; "."]
  /\ permission_paths "--allow-write=" args = ["./ws"; "."]
  /\ ~ confined "./ws,." "."
  /\ status (returned r) = 200.
Proof.
  cbv zeta. split; [vm_compute; reflexivity|]. split; [vm_compute; reflexivity|].
  split; [vm_compute; reflexivity|]. split; [|vm_compute; reflexivity].
  intros [H _]. vm_compute in H. discriminate H.
Qed.

(** ** The result of an execution *)

(** C5. When the timer fires before the child process completes,
    [run_sandbox] returns a result with [success = false],
    [timedOut = true], the error field set (to "Timeout"), and [stderr]
    equal to the fixed text "Execution timed out", whatever the process
    had written to its error stream. *)
Theorem timeout_result {W} (h : handler W) (w : W) (o : RunSandboxOptions)
    (cmd : string) (args : list string) (t : Z) (reply : CommandReply) :
  In (IoCommand cmd args t reply) (trace (interp h (run_sandbox o) w)) ->
  timer_fired reply = true ->
  exists res,
    returned (interp h (run_sandbox o) w) = Ok res
    /\ success res = false
    /\ timedOut res = true
    /\ error res = Some "Timeout"
    /\ stderr res = "Execution timed out".
Proof.
  intros Hin Hfired.
  destruct (sandbox_run_command o _ _ _ _ _ _ (run_sandbox_sound h w o) Hin)
    as (scriptId & _ & _ & _ & ->).
  exists (classify reply). split; [reflexivity|].
  destruct reply as [aborted output|e]; cbn [timer_fired] in Hfired;
    cbn [classify]; rewrite Hfired; repeat split.
Qed.

Lemma timeout_result_witness :
  exists res,
    returned (interp World.h (run_sandbox Demo.options) (Demo.world Demo.child_killed))
      = Ok res
    /\ success res = false
    /\ timedOut res = true
    /\ error res = Some "Timeout"
    /\ stderr res = "Execution timed out".
Proof.
  apply (timeout_result World.h (Demo.world Demo.child_killed) Demo.options
           "deno" (command_args "./ws" 50 Demo.script) 500
           (Resolved true (mkCommandOutput false "partial" "Terminated"))).
  - vm_compute. right. right. right. left. reflexivity.
  - reflexivity.
Defined.

(** C6, as the code has it.  When the launch fails (the wait for the child
    process is rejected with an error that is not the abort error),
    [run_sandbox] returns a result with [success = false],
    [timedOut = false], the error field set to the text of the error, an
    empty [stdout], and [stderr] equal to that same text. *)
Theorem launch_failure_result {W} (h : handler W) (w : W) (o : RunSandboxOptions)
    (cmd : string) (args : list string) (t : Z) (reply : CommandReply) (e : Js.error) :
  In (IoCommand cmd args t reply) (trace (interp h (run_sandbox o) w)) ->
  launch_failed reply = Some e ->
  exists res,
    returned (interp h (run_sandbox o) w) = Ok res
    /\ success res = false
    /\ timedOut res = false
    /\ error res = Some (String_ e)
    /\ stdout res = ""
    /\ stderr res = String_ e.
Proof.
  intros Hin Hfailed.
  destruct (sandbox_run_command o _ _ _ _ _ _ (run_sandbox_sound h w o) Hin)
    as (scriptId & _ & _ & _ & ->).
  exists (classify reply). split; [reflexivity|].
  destruct reply as [aborted output|e']; cbn [launch_failed] in Hfailed;
    [discriminate|].
  cbn [classify]. destruct (is_AbortError e'); [discriminate|].
  injection Hfailed as ->. repeat split.
Qed.

Lemma launch_failure_result_witness :
  exists res,
    returned (interp World.h (run_sandbox Demo.options) (Demo.world Demo.child_missing))
      = Ok res
    /\ success res = false
    /\ timedOut res = false
    /\ error res = Some "NotFound: Failed to spawn 'deno'"
    /\ stdout res = ""
    /\ stderr res = "NotFound: Failed to spawn 'deno'".
Proof.
  apply (launch_failure_result World.h (Demo.world Demo.child_missing) Demo.options
           "deno" (command_args "./ws" 50 Demo.script) 500
           (Rejected (mkError NotFound "NotFound" "Failed to spawn 'deno'"))
           (mkError NotFound "NotFound" "Failed to spawn 'deno'")).
  - vm_compute. right. right. right. left. reflexivity.
  - reflexivity.
Defined.

(** C6 as stated fails: when [deno] cannot be started the result is not a
    timeout, yet its [stderr] is the text of the error, not empty. *)
Lemma launch_failure_stderr_not_empty :
  let r := interp World.h (run_sandbox Demo.options) (Demo.world Demo.child_missing) in
  exists res,
    returned r = Ok res
    /\ success res = false
    /\ timedOut res = false
    /\ stdout res = ""
    /\ stderr res = "NotFound: Failed to spawn 'deno'"
    /\ stderr res <> "".
Proof.
  eexists. split; [vm_compute; reflexivity|]. cbn. repeat split. discriminate.
Qed.

(** ** Removal of the script file *)

(** C7, as the code has it.  Once the script file has been written, every
    run of [run_sandbox] ends the same way, whether the script succeeds,
    fails or is timed out, or the launch throws: the last call is the
    removal of the script file, and the result returned is the one made of
    the way the process ended, whatever the removal answered.  In the file
    system of [World], when that removal succeeds nothing is left at the
    path of the script. *)
Theorem script_cleanup {W} (h : handler W) (w : W) (o : RunSandboxOptions) :
  (forall path data,
     In (IoWriteTextFile path data (Ok tt)) (trace (interp h (run_sandbox o) w)) ->
     exists pre reply removed,
       trace (interp h (run_sandbox o) w)
       = (pre ++ [IoWriteTextFile path data (Ok tt);
                  IoCommand "deno" (command_args (workspace o) (memoryLimit o) path)
                    (timeout o) reply;
                  IoRemove path removed])%list
       /\ existsb is_remove pre = false
       /\ returned (interp h (run_sandbox o) w) = Ok (classify reply))
  /\ (forall (v : World.world) path,
        last (trace (interp World.h (run_sandbox o) v)) = Some (IoRemove path (Ok tt)) ->
        World.present (final (interp World.h (run_sandbox o) v)) path = false).
Proof.
  split; [|intros v path; apply last_remove_absent].
  intros path data Hin.
  destruct (run_sandbox_sound h w o)
    as [e0 e|pre scriptId e Hpre|pre scriptId reply removed Hpre].
  - simpl in Hin. destruct Hin as [H|[H|[]]]; discriminate H.
  - exfalso. apply in_app_or in Hin as [Hin|Hin].
    + destruct Hpre as [[info ->]|[e1 ->]]; simpl in Hin;
        repeat (destruct Hin as [H|Hin]; [discriminate H|]); destruct Hin.
    + simpl in Hin. destruct Hin as [H|[H|[]]]; discriminate H.
  - assert (path = scriptPath (workspace o) scriptId /\ data = code o) as [-> ->].
    { apply in_app_or in Hin as [Hin|Hin].
      - destruct Hpre as [[info ->]|[e1 ->]]; simpl in Hin;
          repeat (destruct Hin as [H|Hin]; [discriminate H|]); destruct Hin.
      - simpl in Hin. destruct Hin as [H|[H|[H|[H|[]]]]]; try discriminate H.
        now injection H as <- <-. }
    exists (pre ++ [IoUUID scriptId])%list, reply, removed.
    rewrite <- app_assoc. repeat split.
    destruct Hpre as [[info ->]|[e1 ->]]; reflexivity.
Qed.

Lemma script_cleanup_witness :
  (exists pre reply removed,
     trace (interp World.h (run_sandbox Demo.options) (Demo.world Demo.child_ok))
     = (pre ++ [IoWriteTextFile Demo.script "while (true) {}" (Ok tt);
                IoCommand "deno" (command_args "./ws" 50 Demo.script) 500 reply;
                IoRemove Demo.script removed])%list
     /\ existsb is_remove pre = false
     /\ returned (interp World.h (run_sandbox Demo.options) (Demo.world Demo.child_ok))
        = Ok (classify reply))
  /\ World.present
       (final (interp World.h (run_sandbox Demo.options) (Demo.world Demo.child_ok)))
       Demo.script = false.
Proof.
  split.
  - apply (proj1 (script_cleanup World.h (Demo.world Demo.child_ok) Demo.options)
             Demo.script "while (true) {}").
    vm_compute. right. right. left. reflexivity.
  - apply (proj2 (script_cleanup World.h (Demo.world Demo.child_ok) Demo.options)
             (Demo.world Demo.child_ok) Demo.script).
    vm_compute. reflexivity.
Defined.

(** C7 as stated fails in two ways.  A script that makes its workspace
    read-only exits normally; the removal is then refused, the refusal is
    swallowed, and the script file is still in the workspace after the
    call.  And when the script file cannot be written, here because the
    workspace path is that of a regular file, [run_sandbox] throws and no
    removal is attempted. *)
Lemma script_left_behind :
  (let r := interp World.h (run_sandbox (mkOptions "Deno.chmodSync('./ws', 0o555)" "./ws" 5000 50))
              (Demo.world Demo.child_locks) in
   returned r = Ok (mkResult true "" "" false None)
   /\ last (trace r)
      = Some (IoRemove Demo.script (World.fail PermissionDenied "PermissionDenied"))
   /\ World.present (final r) Demo.script = true)
  /\ (let r := interp World.h (run_sandbox (mkOptions "console.log(1)" "./deno.json" 5000 50))
                 (Demo.world Demo.child_ok) in
      returned r = World.fail NotADirectory "NotADirectory"
      /\ existsb is_remove (trace r) = false).
Proof. repeat split; vm_compute; reflexivity. Qed.

(** ** The files endpoint *)



(** In the file system of [World]: an update of a missing file leaves the
    tree as it was, and an update or a creation over an existing file
    replaces its content. *)
Example update_missing_leaves_tree :
  map_to_list (World.w_fs (final (interp World.h
     (api "ws" (PostFiles (Ok (mkFilesBody (Some "update") (Some "todo") (Some "new")))))
     (Demo.world Demo.child_ok)))) = map_to_list Demo.tree.
Proof. vm_compute. reflexivity. Qed.

Example update_replaces_content :
  World.readTextFile
    (World.w_fs (final (interp World.h
       (api "ws" (PostFiles (Ok (mkFilesBody (Some "update") (Some "notes") (Some "new")))))
       (Demo.world Demo.child_ok)))) "./ws/notes" = Ok "new".
Proof. vm_compute. reflexivity. Qed.

Example create_replaces_content :
  World.readTextFile
    (World.w_fs (final (interp World.h
       (api "ws" (PostFiles (Ok (mkFilesBody (Some "create") (Some "notes") (Some "new")))))
       (Demo.world Demo.child_ok)))) "./ws/notes" = Ok "new".
Proof. vm_compute. reflexivity. Qed.

(** ** The execute endpoint *)

(** C9, as the code has it.  For a request to the execute endpoint whose
    body parses: a [code] that is missing, not a string, or the empty
    string, a timeout outside [100, 30000], or a memory limit outside
    [10, 500] is answered 400 before any call to the runtime; an absent
    timeout counts as 5000 and an absent memory limit as 50; otherwise
    [run_sandbox] is run with these values, and the answer is 200 with the
    result ([success], [stdout], [stderr], [timedOut], [error]) when it
    returns one, and 500 when it throws, which it does when the workspace
    directory cannot be created or the script file cannot be written.  A
    body that does not parse is answered 500. *)
Theorem execute_contract {W} (h : handler W) (w : W) (workspace : string) :
  (forall b : ExecuteBody,
     let r := interp h (execute workspace (Ok b)) w in
     let t := default 5000 (eb_timeout b) in
     let m := default 50 (eb_memoryLimit b) in
     (typeof_string (eb_code b) = false \/ eb_code b = JString ""
      \/ t < 100 \/ 30000 < t \/ m < 10 \/ 500 < m ->
      status (returned r) = 400 /\ trace r = [])
     /\ (forall src, eb_code b = JString src -> src <> "" ->
         100 <= t <= 30000 -> 10 <= m <= 500 ->
         exists x,
           sandbox_run (mkOptions src workspace t m) (trace r) x
           /\ returned r =
              match x with
              | Ok res => json (ResultJson res) 200
              | Throw e => json (ErrorJson "Internal server error" (Some (String_ e))) 500
              end))
  /\ (forall e : Js.error,
        let r := interp h (execute workspace (Throw e)) w in
        status (returned r) = 500 /\ trace r = []).
Proof.
  split; [|intros e; now cbn].
  intros b r t m. subst r. split.
  - intros Hbad.
    assert (accepted b = false) as Hb.
    { unfold accepted. fold t m.
      destruct Hbad as [H|[H|[H|[H|[H|H]]]]].
      - rewrite H. now rewrite andb_false_r.
      - now rewrite H.
      - apply Z.ltb_lt in H. rewrite H. cbn [orb negb].
        now rewrite andb_false_r.
      - apply Z.gtb_lt in H. rewrite H. rewrite orb_true_r. cbn [negb].
        now rewrite andb_false_r.
      - apply Z.ltb_lt in H. rewrite H. cbn [orb negb].
        now rewrite andb_false_r.
      - apply Z.gtb_lt in H. rewrite H. rewrite orb_true_r. cbn [negb].
        now rewrite andb_false_r. }
    destruct (execute_refused workspace b Hb) as [msg ->]. now cbn.
  - intros src Hcode Hsrc Ht Hm.
    assert (accepted b = true) as Hb.
    { unfold accepted. fold t m. rewrite Hcode. cbn [truthy typeof_string].
      destruct (String.eqb_spec src ""); [contradiction|]. cbn [negb andb].
      replace (Z.ltb t 100) with false by (symmetry; apply Z.ltb_ge; lia).
      replace (Z.gtb t 30000) with false by (symmetry; rewrite Z.gtb_ltb; apply Z.ltb_ge; lia).
      replace (Z.ltb m 10) with false by (symmetry; apply Z.ltb_ge; lia).
      replace (Z.gtb m 500) with false by (symmetry; rewrite Z.gtb_ltb; apply Z.ltb_ge; lia).
      reflexivity. }
    destruct (wp_sound h _ _ w (execute_accepted workspace b Hb)) as (x & Hrun & Hresp).
    exists x. unfold execute_options in Hrun. rewrite Hcode in Hrun.
    split; [exact Hrun|]. rewrite Hresp. now destruct x.
Qed.

Lemma execute_contract_witness :
  (status (returned (interp World.h
             (execute "./ws" (Ok (mkExecuteBody (JNumber 7) (Some 200) None)))
             (Demo.world Demo.child_ok))) = 400
   /\ trace (interp World.h
               (execute "./ws" (Ok (mkExecuteBody (JNumber 7) (Some 200) None)))
               (Demo.world Demo.child_ok)) = [])
  /\ exists x,
       sandbox_run (mkOptions "console.log(1)" "./ws" 5000 50)
         (trace (interp World.h
                   (execute "./ws" (Ok (mkExecuteBody (JString "console.log(1)") None None)))
                   (Demo.world Demo.child_ok))) x
       /\ returned (interp World.h
                      (execute "./ws" (Ok (mkExecuteBody (JString "console.log(1)") None None)))
                      (Demo.world Demo.child_ok))
          = match x with
            | Ok res => json (ResultJson res) 200
            | Throw e => json (ErrorJson "Internal server error" (Some (String_ e))) 500
            end.
Proof.
  split.
  - apply (proj1 (proj1 (execute_contract World.h (Demo.world Demo.child_ok) "./ws")
                    (mkExecuteBody (JNumber 7) (Some 200) None))).
    left. reflexivity.
  - apply (proj2 (proj1 (execute_contract World.h (Demo.world Demo.child_ok) "./ws")
                    (mkExecuteBody (JString "console.log(1)") None None))
             "console.log(1)" eq_refl).
    + discriminate.
    + cbn. lia.
    + cbn. lia.
Defined.

(** C9 as stated fails in three ways: a [code] that is present and a
    string, but empty, is answered 400; a well-formed request is answered
    500 when the script file cannot be written, here because the workspace
    name is that of a regular file; and a body that does not parse, so that
    [code] is missing, is answered 500. *)
Lemma execute_not_200_or_400 :
  status (returned (interp World.h
            (api "ws" (PostExecute (Ok (mkExecuteBody (JString "") None None))))
            (Demo.world Demo.child_ok))) = 400
  /\ status (returned (interp World.h
               (api "deno.json"
                  (PostExecute (Ok (mkExecuteBody (JString "console.log(1)") None None))))
               (Demo.world Demo.child_ok))) = 500
  /\ status (returned (interp World.h
               (api "ws"
                  (PostExecute
                     (Throw (mkError SyntaxError "SyntaxError" "Unexpected end of JSON input"))))
               (Demo.world Demo.child_ok))) = 500.
Proof. repeat split; vm_compute; reflexivity. Qed.

(** ** A missing workspace directory *)




(** In the file system of [World]: a first execution in a workspace that
    does not exist yet creates its directory and is answered 200. *)
Example execute_creates_workspace :
  let r := interp World.h
             (api "new" (PostExecute (Ok (mkExecuteBody (JString "console.log(1)") None None))))
             (Demo.world Demo.child_ok) in
  World.present (Demo.world Demo.child_ok) "./new" = false
  /\ status (returned r) = 200
  /\ World.present (final r) "./new" = true.
Proof. repeat split; vm_compute; reflexivity. Qed.

(** * Further properties *)

(** ** Authentication *)

(** X1. The requests the middleware lets through are handled by the routes as
    if there were no middleware: every request when no master key is
    configured, and otherwise the requests that present the key, after
    ["Bearer "] or bare. *)
Theorem authorized_requests_pass (MASTER_KEY authHeader : option string) (t : target) :
  authorized MASTER_KEY authHeader ->
  app MASTER_KEY authHeader t = routed t.
Proof.
  unfold app, auth. intros [Hk|(key & -> & Hh)]; [now rewrite Hk|].
  cbn [falsy default from_option id].
  destruct (String.eqb_spec key "") as [->|Hkey]; [reflexivity|].
  destruct Hh as [->|[-> Hs]]; cbn [falsy default from_option id].
  - change (String.eqb ("Bearer " +:+ key) "") with false.
    rewrite starts_with_app.
    change (slice 7 ("Bearer " +:+ key)) with key.
    now rewrite String.eqb_refl.
  - destruct (String.eqb_spec key ""); [contradiction|].
    rewrite Hs. now rewrite String.eqb_refl.
Qed.

Lemma authorized_requests_pass_witness :
  app (Some "s3cret") (Some "Bearer s3cret") (Api "ws" PostCreate)
  = routed (Api "ws" PostCreate).
Proof.
  apply authorized_requests_pass. right. exists "s3cret". split; [reflexivity|].
  left. reflexivity.
Defined.

(** X2. Every other request is answered 401 and nothing else happens: no call
    to the runtime is made, whatever the route, and the check of the
    workspace identifier is not reached. *)
Theorem unauthorized_requests_rejected {W} (h : handler W) (w : W)
    (MASTER_KEY authHeader : option string) (t : target) :
  ~ authorized MASTER_KEY authHeader ->
  let r := interp h (app MASTER_KEY authHeader t) w in
  status (returned r) = 401 /\ trace r = [] /\ final r = w.
Proof.
  intros Hno r. subst r. unfold app, auth.
  destruct (falsy MASTER_KEY) eqn:Hk; [contradiction Hno; now left|].
  destruct MASTER_KEY as [key|]; [|discriminate].
  destruct (falsy authHeader) eqn:Hh; [now cbn|].
  destruct authHeader as [header|]; [|discriminate].
  cbn [default from_option id].
  destruct (String.eqb_spec
              (if starts_with "Bearer " header then slice 7 header else header) key)
    as [Heq|Hne]; [|now cbn].
  contradiction Hno. right. exists key. split; [reflexivity|].
  destruct (starts_with "Bearer " header) eqn:Hs.
  - left. f_equal. rewrite <- Heq. exact (starts_with_slice "Bearer " header Hs).
  - right. subst key. auto.
Qed.

Lemma unauthorized_requests_rejected_witness :
  status (returned (interp World.h
            (app (Some "Bearer s3cret") (Some "Bearer s3cret") (Api "../etc" PostCreate))
            (Demo.world Demo.child_ok))) = 401
  /\ trace (interp World.h
              (app (Some "Bearer s3cret") (Some "Bearer s3cret") (Api "../etc" PostCreate))
              (Demo.world Demo.child_ok)) = []
  /\ final (interp World.h
              (app (Some "Bearer s3cret") (Some "Bearer s3cret") (Api "../etc" PostCreate))
              (Demo.world Demo.child_ok)) = Demo.world Demo.child_ok.
Proof.
  apply (unauthorized_requests_rejected World.h (Demo.world Demo.child_ok)
           (Some "Bearer s3cret") (Some "Bearer s3cret") (Api "../etc" PostCreate)).
  intros [H|(key & Hk & [H|[H Hs]])]; try discriminate H.
  - injection Hk as <-. discriminate H.
  - injection Hk as <-. discriminate Hs.
Defined.

(** ** What each route calls *)

(** Goes through a program, leaving the goals on its calls. *)
Ltac walk :=
  repeat first
    [ apply always_ret
    | match goal with
      | |- always _ (Vis _ _) => apply always_vis; [intros ?|intros ?]
      | |- always _ (bind (call _) _) => apply always_vis; [intros ?|intros ?]
      | |- always _ (if ?b then _ else _) => destruct b
      | |- always _ (match ?x with _ => _ end) => destruct x
      end ].

Lemma list_entries_calls (workspacePath : string) (todo : list DirEntry)
    (entries : list FileEntry) :
  always (fun c => In (kind_of c) [KStat; KReadDir])
    (list_entries workspacePath todo entries).
Proof.
  revert entries. induction todo as [|entry more IH]; intros entries;
    cbn [list_entries]; [apply always_ret|].
  apply always_vis; [intros st; cbn; tauto|].
  intros [info|e]; [apply IH|apply always_ret].
Qed.

Lemma files_action_calls (workspacePath action : string)
    (filename content : option string) :
  always (fun c => In (kind_of c) (action_calls action))
    (files_action workspacePath action filename content).
Proof.
  unfold files_action, action_calls.
  destruct (String.eqb action "list").
  { apply always_vis; [intros; cbn; tauto|].
    intros [todo|e]; [apply list_entries_calls|apply always_ret]. }
  destruct (String.eqb action "read"); [walk; cbn; tauto|].
  destruct (String.eqb action "create"); [walk; cbn; tauto|].
  destruct (String.eqb action "update"); [walk; cbn; tauto|].
  destruct (String.eqb action "delete"); [walk; cbn; tauto|].
  apply always_ret.
Qed.

Lemma action_calls_stat (action : string) : In KStat (action_calls action).
Proof.
  unfold action_calls.
  repeat match goal with |- context [if ?b then _ else _] => destruct b end;
    cbn; tauto.
Qed.

Lemma run_sandbox_calls (o : RunSandboxOptions) :
  always (fun c => In (kind_of c) [KStat; KMkdir; KUUID; KWrite; KCommand; KRemove])
    (run_sandbox o).
Proof.
  unfold run_sandbox.
  apply always_vis; [intros; cbn; tauto|]. intros st.
  apply always_bind.
  - destruct st; [apply always_ret|].
    apply always_vis; [intros; cbn; tauto|intros; apply always_ret].
  - intros [made|e]; cbv beta iota; [|apply always_ret].
    walk; cbn; tauto.
Qed.

(** X3. Each route makes only its own kinds of calls, in every environment:
    the creation of a workspace checks and makes directories; an execution
    checks, makes a directory, draws an identifier, writes, spawns and
    removes, and never reads; the files endpoint checks the workspace and,
    by action, lists, reads, writes or removes, and never spawns a process
    or makes a directory; a download checks, opens and closes, and never
    writes or removes. *)
Theorem routes_keep_to_their_calls {W} (h : handler W) (w : W)
    (name : string) (ep : endpoint) :
  Forall (fun c => In (kind_of c) (route_calls ep)) (trace (interp h (api name ep) w)).
Proof.
  apply always_sound. unfold api.
  destruct (String.eqb name "" || has_traversal name); [apply always_ret|].
  destruct ep as [|body|body|filename|]; cbn [route_calls].
  - unfold create. walk; cbn; tauto.
  - unfold execute. destruct body as [b|e]; [|apply always_ret].
    repeat match goal with
           | |- always _ (if ?b then _ else _) => destruct b; [apply always_ret|]
           end.
    apply always_bind; [apply run_sandbox_calls|].
    intros [r|e]; apply always_ret.
  - unfold files. destruct body as [b|e]; [|apply always_ret].
    destruct (falsy (fb_action b)); [apply always_ret|].
    apply always_vis; [intros; apply action_calls_stat|].
    intros [info|e]; [apply files_action_calls|apply always_ret].
  - unfold download. walk; cbn; tauto.
  - apply always_ret.
Qed.

(** ** Stopping at the first failure *)





(** ** The list action *)

Lemma list_entries_runs (workspacePath : string) (todo : list DirEntry)
    (entries : list FileEntry) :
  wp (list_entries workspacePath todo entries)
    (fun tr resp =>
       (exists infos,
          length infos = length todo
          /\ tr = zip_with (entry_check workspacePath) todo infos
          /\ resp = json (FilesJson (entries ++ zip_with listed todo infos)) 200)
       \/ (exists infos entry e,
             todo !! length infos = Some entry
             /\ tr = (zip_with (entry_check workspacePath) todo infos
                      ++ [IoStat (workspacePath +:+ "/" +:+ entry_name entry) (Throw e)])%list
             /\ resp = json (ErrorJson "Failed to list files" (Some (String_ e))) 500)).
Proof.
  revert entries. induction todo as [|entry more IH]; intros entries;
    cbn [list_entries].
  - left. exists []. now rewrite app_nil_r.
  - intros [info|e]; cbn [wp].
    + eapply wp_mono; [|apply IH].
      intros tr resp [(infos & Hlen & -> & ->)|(infos & entry' & e & Hat & -> & ->)].
      * left. exists (info :: infos). cbn [length zip_with].
        rewrite Hlen, <- app_assoc. repeat split.
      * right. exists (info :: infos), entry', e. repeat split. exact Hat.
    + right. exists [], entry, e. repeat split.
Qed.

Lemma entry_checks_resolve (workspacePath : string) (todo : list DirEntry)
    (infos : list FileInfo) :
  existsb threw (zip_with (entry_check workspacePath) todo infos) = false.
Proof.
  revert infos. induction todo as [|entry more IH]; intros [|info infos];
    cbn; auto.
Qed.

(** The ways a request with the action [list] goes. *)
Lemma list_runs (workspacePath : string) (filename content : option string) :
  wp (files workspacePath (Ok (mkFilesBody (Some "list") filename content)))
    (fun tr resp =>
       (exists e, tr = [IoStat workspacePath (Throw e)]
                  /\ resp = json (ErrorJson "Workspace does not exist" None) 404)
       \/ (exists info e,
             tr = [IoStat workspacePath (Ok info); IoReadDir workspacePath (Throw e)]
             /\ resp = json (ErrorJson "Failed to list files" (Some (String_ e))) 500)
       \/ (exists info listing infos,
             length infos = length listing
             /\ tr = IoStat workspacePath (Ok info)
                     :: IoReadDir workspacePath (Ok listing)
                     :: zip_with (entry_check workspacePath) listing infos
             /\ resp = json (FilesJson (zip_with listed listing infos)) 200)
       \/ (exists info listing infos entry e,
             listing !! length infos = Some entry
             /\ tr = (IoStat workspacePath (Ok info)
                      :: IoReadDir workspacePath (Ok listing)
                      :: zip_with (entry_check workspacePath) listing infos
                      ++ [IoStat (workspacePath +:+ "/" +:+ entry_name entry) (Throw e)])%list
             /\ resp = json (ErrorJson "Failed to list files" (Some (String_ e))) 500)).
Proof.
  unfold files, files_action. cbn [fb_action fb_filename fb_content falsy default
    from_option id String.eqb Ascii.eqb Bool.eqb].
  simpl. intros [info|e]; simpl; [|left; eauto].
  intros [listing|e]; simpl; [|right; left; eauto].
  eapply wp_mono; [|apply list_entries_runs].
  intros tr resp [(infos & Hlen & -> & ->)|(infos & entry & e & Hat & -> & ->)].
  - right. right. left. exists info, listing, infos. repeat split. exact Hlen.
  - right. right. right. exists info, listing, infos, entry, e. repeat split. exact Hat.
Qed.

(** X5. A listing in which no call fails answers 200 with one entry for each
    entry the directory yields, in the same order: the name and the kind
    are those of the directory entry, the size and the modification time
    those [Deno.stat] gives for the path made of the workspace path and
    the name.  The file name and the content of the request play no
    part. *)
Theorem list_answers_every_entry {W} (h : handler W) (w : W)
    (workspacePath : string) (filename content : option string) :
  let r := interp h (files workspacePath
                       (Ok (mkFilesBody (Some "list") filename content))) w in
  existsb threw (trace r) = false ->
  exists info listing infos,
    length infos = length listing
    /\ trace r = IoStat workspacePath (Ok info)
                 :: IoReadDir workspacePath (Ok listing)
                 :: zip_with (entry_check workspacePath) listing infos
    /\ returned r = json (FilesJson (zip_with listed listing infos)) 200.
Proof.
  intros r. subst r.
  destruct (wp_sound h _ _ w (list_runs workspacePath filename content))
    as [(e & -> & _)|[(info & e & -> & _)|[(info & listing & infos & Hlen & Htr & Hresp)
       |(info & listing & infos & entry & e & _ & -> & _)]]].
  - discriminate.
  - discriminate.
  - intros _. exists info, listing, infos. auto.
  - cbn [existsb threw thrown orb]. rewrite existsb_app. cbn.
    rewrite orb_true_r. discriminate.
Qed.

Lemma list_answers_every_entry_witness :
  exists info listing infos,
    length infos = length listing
    /\ trace (interp World.h
                (files "./ws" (Ok (mkFilesBody (Some "list") None None)))
                (Demo.world Demo.child_ok))
       = IoStat "./ws" (Ok info) :: IoReadDir "./ws" (Ok listing)
         :: zip_with (entry_check "./ws") listing infos
    /\ returned (interp World.h
                   (files "./ws" (Ok (mkFilesBody (Some "list") None None)))
                   (Demo.world Demo.child_ok))
       = json (FilesJson (zip_with listed listing infos)) 200.
Proof.
  apply (list_answers_every_entry World.h (Demo.world Demo.child_ok) "./ws" None None).
  vm_compute. reflexivity.
Defined.

(** X6. A listing fails as a whole: when the workspace exists and any call
    throws, be it the reading of the directory or the check of one entry,
    the answer is 500 ("Failed to list files") with the text of that
    error, and none of the entries already checked is answered. *)
Theorem list_fails_as_a_whole {W} (h : handler W) (w : W)
    (workspacePath : string) (filename content : option string) (info : FileInfo) :
  let r := interp h (files workspacePath
                       (Ok (mkFilesBody (Some "list") filename content))) w in
  head (trace r) = Some (IoStat workspacePath (Ok info)) ->
  existsb threw (trace r) = true ->
  exists e,
    last (trace r) ≫= thrown = Some e
    /\ returned r = json (ErrorJson "Failed to list files" (Some (String_ e))) 500.
Proof.
  intros r. subst r.
  destruct (wp_sound h _ _ w (list_runs workspacePath filename content))
    as [(e & -> & _)|[(info0 & e & -> & ->)|[(info0 & listing & infos & Hlen & -> & _)
       |(info0 & listing & infos & entry & e & _ & -> & ->)]]].
  - discriminate.
  - intros _ _. exists e. split; reflexivity.
  - intros _. cbn [existsb threw thrown orb]. rewrite entry_checks_resolve.
    discriminate.
  - intros _ _. exists e. split; [|reflexivity].
    rewrite !app_comm_cons, last_snoc. reflexivity.
Qed.

Lemma list_fails_as_a_whole_witness :
  exists e,
    last (trace (interp World.h
                   (files "deno.json" (Ok (mkFilesBody (Some "list") None None)))
                   (Demo.world Demo.child_ok))) ≫= thrown = Some e
    /\ returned (interp World.h
                   (files "deno.json" (Ok (mkFilesBody (Some "list") None None)))
                   (Demo.world Demo.child_ok))
       = json (ErrorJson "Failed to list files" (Some (String_ e))) 500.
Proof.
  apply (list_fails_as_a_whole World.h (Demo.world Demo.child_ok) "deno.json" None None
           (mkFileInfo true false 2 None)).
  - vm_compute. reflexivity.
  - vm_compute. reflexivity.
Defined.

(** ** The other actions and routes *)

(** X7. Reading a named file of an existing workspace makes one call, the
    reading of the path built from the name, and answers 200 with the
    text read, as it is; every failure of that call, of whatever kind, is
    answered 404 ("Failed to read file") with the text of the error. *)
Theorem read_contract {W} (h : handler W) (w : W)
    (workspacePath f : string) (content : option string) (info : FileInfo) :
  f <> "" ->
  let r := interp h (files workspacePath
                       (Ok (mkFilesBody (Some "read") (Some f) content))) w in
  head (trace r) = Some (IoStat workspacePath (Ok info)) ->
  exists answer,
    trace r = [IoStat workspacePath (Ok info);
               IoReadTextFile (workspacePath +:+ "/" +:+ strip_dotdot f) answer]
    /\ returned r =
       match answer with
       | Ok text => json (ContentJson text) 200
       | Throw e => json (ErrorJson "Failed to read file" (Some (String_ e))) 404
       end.
Proof.
  intros Hf r. subst r. apply String.eqb_neq in Hf.
  by_wp. open_files Hf. simpl. intros [info0|e0]; simpl; [|discriminate].
  intros [text|e]; simpl; intros Hhead; assert (info0 = info) as -> by congruence;
    eexists; split; reflexivity.
Qed.

Lemma read_contract_witness :
  exists answer,
    trace (interp World.h
             (files "./ws" (Ok (mkFilesBody (Some "read") (Some "sub") None)))
             (Demo.world Demo.child_ok))
    = [IoStat "./ws" (Ok (mkFileInfo false true 0 None));
       IoReadTextFile ("./ws" +:+ "/" +:+ strip_dotdot "sub") answer]
    /\ returned (interp World.h
                   (files "./ws" (Ok (mkFilesBody (Some "read") (Some "sub") None)))
                   (Demo.world Demo.child_ok))
       = match answer with
         | Ok text => json (ContentJson text) 200
         | Throw e => json (ErrorJson "Failed to read file" (Some (String_ e))) 404
         end.
Proof.
  apply (read_contract World.h (Demo.world Demo.child_ok) "./ws" "sub" None
           (mkFileInfo false true 0 None)).
  - discriminate.
  - vm_compute. reflexivity.
Defined.

(** X8. Deleting a named file of an existing workspace makes one call, the
    removal of the path built from the name, without checking the target
    first, and answers 200 when it succeeds, 404 ("File does not exist")
    when it reports that the path is not found, and 500 with the text of
    the error for any other failure. *)
Theorem delete_contract {W} (h : handler W) (w : W)
    (workspacePath f : string) (content : option string) (info : FileInfo) :
  f <> "" ->
  let r := interp h (files workspacePath
                       (Ok (mkFilesBody (Some "delete") (Some f) content))) w in
  head (trace r) = Some (IoStat workspacePath (Ok info)) ->
  exists answer,
    trace r = [IoStat workspacePath (Ok info);
               IoRemove (workspacePath +:+ "/" +:+ strip_dotdot f) answer]
    /\ returned r =
       match answer with
       | Ok _ => json (SuccessJson "File deleted successfully") 200
       | Throw e =>
           if is_NotFound e then json (ErrorJson "File does not exist" None) 404
           else json (ErrorJson "Failed to delete file" (Some (String_ e))) 500
       end.
Proof.
  intros Hf r. subst r. apply String.eqb_neq in Hf.
  by_wp. open_files Hf. simpl. intros [info0|e0]; simpl; [|discriminate].
  intros [[]|e]; simpl; [|destruct (is_NotFound e) eqn:He; simpl];
    intros Hhead; assert (info0 = info) as -> by congruence;
    eexists; (split; [reflexivity|]); cbn; rewrite ?He; reflexivity.
Qed.

Lemma delete_contract_witness :
  exists answer,
    trace (interp World.h
             (files "./ws" (Ok (mkFilesBody (Some "delete") (Some "sub") None)))
             (Demo.world Demo.child_ok))
    = [IoStat "./ws" (Ok (mkFileInfo false true 0 None));
       IoRemove ("./ws" +:+ "/" +:+ strip_dotdot "sub") answer]
    /\ returned (interp World.h
                   (files "./ws" (Ok (mkFilesBody (Some "delete") (Some "sub") None)))
                   (Demo.world Demo.child_ok))
       = match answer with
         | Ok _ => json (SuccessJson "File deleted successfully") 200
         | Throw e =>
             if is_NotFound e then json (ErrorJson "File does not exist" None) 404
             else json (ErrorJson "Failed to delete file" (Some (String_ e))) 500
         end.
Proof.
  apply (delete_contract World.h (Demo.world Demo.child_ok) "./ws" "sub" None
           (mkFileInfo false true 0 None)).
  - discriminate.
  - vm_compute. reflexivity.
Defined.

(** X9. The creation of a workspace goes one of three ways, in every
    environment.  If the check of the path succeeds, whatever is found
    there, the answer is 409 and nothing is created.  If the check throws,
    for whatever reason, the directory is created with its parents, and
    the answer is 200 when that succeeds and 500 ("Failed to create
    workspace") with the text of the error when it does not. *)
Theorem create_workspace_contract {W} (h : handler W) (w : W) (workspacePath : string) :
  let r := interp h (create workspacePath) w in
  match trace r with
  | [IoStat p (Ok _)] =>
      p = workspacePath
      /\ returned r = json (ErrorJson "Workspace already exists" None) 409
  | [IoStat p (Throw _); IoMkdir p' recursive made] =>
      p = workspacePath /\ p' = workspacePath /\ recursive = true
      /\ returned r =
         match made with
         | Ok _ => json (SuccessJson "Workspace created successfully") 200
         | Throw e =>
             json (ErrorJson "Failed to create workspace" (Some (String_ e))) 500
         end
  | _ => False
  end.
Proof.
  intros r. subst r. by_wp. unfold create. simpl.
  intros [info|e]; simpl; [auto|]. intros [[]|e']; simpl; auto.
Qed.

(** X10. A download of a name the handler accepts, and that the response
    header made of it can hold ([legal_header_value]), goes one of four
    ways, in every environment.  The path is checked; if the check throws
    the answer is 404; if it reports anything but a regular file the
    answer is 400 and the path is not opened; otherwise the file is
    opened, and the answer is 500 if that throws; once opened, the file
    is closed and the answer is 200 with the chunks of the file in
    order.  A name the header cannot hold is left aside: setting the
    header then throws after the file has been opened. *)
Theorem download_contract {W} (h : handler W) (w : W)
    (workspacePath name : string) :
  name <> "" ->
  has_traversal name = false ->
  legal_header_value name = true ->
  let r := interp h (download workspacePath (Some name)) w in
  let path := workspacePath +:+ "/" +:+ name in
  match trace r with
  | [IoStat p (Throw _)] =>
      p = path /\ returned r = json (ErrorJson "File not found" None) 404
  | [IoStat p (Ok info)] =>
      p = path /\ isFile info = false
      /\ returned r = json (ErrorJson "Path is not a file" None) 400
  | [IoStat p (Ok info); IoOpen p' (Throw e)] =>
      p = path /\ p' = path /\ isFile info = true
      /\ returned r = json (ErrorJson "Internal server error" (Some (String_ e))) 500
  | [IoStat p (Ok info); IoOpen p' (Ok file); IoClose p'' _] =>
      p = path /\ p' = path /\ p'' = path /\ isFile info = true
      /\ status (returned r) = 200
      /\ exists headers, body (returned r) = StreamBody headers (readable file)
  | _ => False
  end.
Proof.
  intros Hname Htrav _ r path. subst r path. apply String.eqb_neq in Hname.
  by_wp. unfold download. cbn [falsy default from_option id].
  rewrite Hname, Htrav. simpl.
  intros [info|e]; simpl; [|auto].
  destruct (isFile info) eqn:Hfile; simpl; [|auto].
  intros [file|e]; simpl; [|auto].
  intros closed. repeat split; auto. eexists. reflexivity.
Qed.

Lemma download_contract_witness :
  match trace (interp World.h (download "./ws" (Some "notes")) (Demo.world Demo.child_ok)) with
  | [IoStat p (Throw _)] =>
      p = "./ws" +:+ "/" +:+ "notes"
      /\ returned (interp World.h (download "./ws" (Some "notes"))
                     (Demo.world Demo.child_ok))
         = json (ErrorJson "File not found" None) 404
  | [IoStat p (Ok info)] =>
      p = "./ws" +:+ "/" +:+ "notes" /\ isFile info = false
      /\ returned (interp World.h (download "./ws" (Some "notes"))
                     (Demo.world Demo.child_ok))
         = json (ErrorJson "Path is not a file" None) 400
  | [IoStat p (Ok info); IoOpen p' (Throw e)] =>
      p = "./ws" +:+ "/" +:+ "notes" /\ p' = "./ws" +:+ "/" +:+ "notes"
      /\ isFile info = true
      /\ returned (interp World.h (download "./ws" (Some "notes"))
                     (Demo.world Demo.child_ok))
         = json (ErrorJson "Internal server error" (Some (String_ e))) 500
  | [IoStat p (Ok info); IoOpen p' (Ok file); IoClose p'' _] =>
      p = "./ws" +:+ "/" +:+ "notes" /\ p' = "./ws" +:+ "/" +:+ "notes"
      /\ p'' = "./ws" +:+ "/" +:+ "notes" /\ isFile info = true
      /\ status (returned (interp World.h (download "./ws" (Some "notes"))
                             (Demo.world Demo.child_ok))) = 200
      /\ exists headers,
           body (returned (interp World.h (download "./ws" (Some "notes"))
                             (Demo.world Demo.child_ok)))
           = StreamBody headers (readable file)
  | _ => False
  end.
Proof.
  apply (download_contract World.h (Demo.world Demo.child_ok) "./ws" "notes").
  - discriminate.
  - reflexivity.
  - reflexivity.
Defined.

(** X11. The checks of the files handler come in this order.  A body that does
    not parse is answered 500 and a missing or empty action 400, both
    before any call, so also for a workspace that does not exist.  An
    action that is none of the five is found out only after the check of
    the workspace directory: it is answered 400 if the workspace exists
    and 404 if not.  A creation or an update without content is answered
    400 after that same check, whatever the file name, and nothing is
    written. *)
Theorem files_request_checks {W} (h : handler W) (w : W) (workspacePath : string) :
  (forall e,
     let r := interp h (files workspacePath (Throw e)) w in
     returned r = json (ErrorJson "Internal server error" (Some (String_ e))) 500
     /\ trace r = [])
  /\ (forall b,
        falsy (fb_action b) = true ->
        let r := interp h (files workspacePath (Ok b)) w in
        returned r = json (ErrorJson "Action is required" None) 400 /\ trace r = [])
  /\ (forall action filename content,
        action <> "" ->
        ~ In action ["list"; "read"; "create"; "update"; "delete"] ->
        let r := interp h (files workspacePath
                             (Ok (mkFilesBody (Some action) filename content))) w in
        exists st,
          trace r = [IoStat workspacePath st]
          /\ returned r =
             match st with
             | Ok _ =>
                 json (ErrorJson
                         "Invalid action. Supported actions: list, read, create, update, delete"
                         None) 400
             | Throw _ => json (ErrorJson "Workspace does not exist" None) 404
             end)
  /\ (forall action filename,
        In action ["create"; "update"] ->
        let r := interp h (files workspacePath
                             (Ok (mkFilesBody (Some action) filename None))) w in
        exists st,
          trace r = [IoStat workspacePath st]
          /\ status (returned r) = if is_Ok st then 400 else 404).
Proof.
  split; [intros e; now cbn|]. split; [|split].
  - intros b Hb r. subst r. unfold files. rewrite Hb. now cbn.
  - intros action filename content Ha Hnot r. subst r.
    apply String.eqb_neq in Ha.
    unfold files. cbn [fb_action fb_filename fb_content falsy default from_option id].
    rewrite Ha. by_wp. simpl. intros [info|e]; simpl; [|eauto].
    unfold files_action. cbn [In] in Hnot.
    destruct (String.eqb_spec action "list"); [exfalso; apply Hnot; subst; auto 10|].
    destruct (String.eqb_spec action "read"); [exfalso; apply Hnot; subst; auto 10|].
    destruct (String.eqb_spec action "create"); [exfalso; apply Hnot; subst; auto 10|].
    destruct (String.eqb_spec action "update"); [exfalso; apply Hnot; subst; auto 10|].
    destruct (String.eqb_spec action "delete"); [exfalso; apply Hnot; subst; auto 10|].
    simpl. eauto.
  - intros action filename Ha r. subst r.
    cbn [In] in Ha. destruct Ha as [<-|[<-|[]]]; by_wp;
      unfold files, files_action;
      cbn [fb_action fb_filename fb_content falsy undefined default from_option id
           String.eqb Ascii.eqb Bool.eqb];
      rewrite !orb_true_r; simpl; intros [info|e]; simpl; eauto.
Qed.

Lemma files_request_checks_witness :
  (returned (interp World.h (files "./nowhere" (Ok (mkFilesBody (Some "") None None)))
               (Demo.world Demo.child_ok))
   = json (ErrorJson "Action is required" None) 400
   /\ trace (interp World.h (files "./nowhere" (Ok (mkFilesBody (Some "") None None)))
               (Demo.world Demo.child_ok)) = [])
  /\ (exists st,
        trace (interp World.h
                 (files "./nowhere" (Ok (mkFilesBody (Some "rename") None None)))
                 (Demo.world Demo.child_ok)) = [IoStat "./nowhere" st]
        /\ returned (interp World.h
                       (files "./nowhere" (Ok (mkFilesBody (Some "rename") None None)))
                       (Demo.world Demo.child_ok))
           = match st with
             | Ok _ =>
                 json (ErrorJson
                         "Invalid action. Supported actions: list, read, create, update, delete"
                         None) 400
             | Throw _ => json (ErrorJson "Workspace does not exist" None) 404
             end)
  /\ (exists st,
        trace (interp World.h
                 (files "./ws" (Ok (mkFilesBody (Some "create") (Some "a.txt") None)))
                 (Demo.world Demo.child_ok)) = [IoStat "./ws" st]
        /\ status (returned (interp World.h
                               (files "./ws"
                                  (Ok (mkFilesBody (Some "create") (Some "a.txt") None)))
                               (Demo.world Demo.child_ok)))
           = if is_Ok st then 400 else 404).
Proof.
  split; [|split].
  - apply (proj1 (proj2 (files_request_checks World.h (Demo.world Demo.child_ok)
                           "./nowhere"))
             (mkFilesBody (Some "") None None)).
    reflexivity.
  - apply (proj1 (proj2 (proj2 (files_request_checks World.h (Demo.world Demo.child_ok)
                                  "./nowhere")))
             "rename" None None).
    + discriminate.
    + cbn. intros [H|[H|[H|[H|[H|[]]]]]]; discriminate H.
  - apply (proj2 (proj2 (proj2 (files_request_checks World.h (Demo.world Demo.child_ok)
                                  "./ws")))
             "create" (Some "a.txt")).
    cbn. tauto.
Defined.

(** ** More on [run_sandbox] *)

(** X12. When the child process completes before the timer fires, the result
    hands on what the process produced: its exit status as [success], its
    two streams as [stdout] and [stderr], no timeout and no error field;
    a script that fails is told from one that succeeds by [success]
    alone. *)
Theorem completed_result {W} (h : handler W) (w : W) (o : RunSandboxOptions)
    (cmd : string) (args : list string) (t : Z) (output : CommandOutput) :
  In (IoCommand cmd args t (Resolved false output)) (trace (interp h (run_sandbox o) w)) ->
  returned (interp h (run_sandbox o) w)
  = Ok (mkResult (out_success output) (out_stdout output) (out_stderr output) false None).
Proof.
  intros Hin.
  destruct (sandbox_run_command o _ _ _ _ _ _ (run_sandbox_sound h w o) Hin)
    as (scriptId & _ & _ & _ & ->).
  reflexivity.
Qed.

Lemma completed_result_witness :
  returned (interp World.h (run_sandbox Demo.options) (Demo.world Demo.child_ok))
  = Ok (mkResult true "out" "" false None).
Proof.
  apply (completed_result World.h (Demo.world Demo.child_ok) Demo.options
           "deno" (command_args "./ws" 50 Demo.script) 500
           (mkCommandOutput true "out" "")).
  vm_compute. right. right. right. left. reflexivity.
Defined.

(** X13. Every result [run_sandbox] returns is coherent: a success is neither a
    timeout nor carries an error; a timeout is a failure with the fixed
    text in [stderr] and the error "Timeout"; and a result without error
    field is not a timeout. *)
Theorem results_are_coherent {W} (h : handler W) (w : W) (o : RunSandboxOptions)
    (res : SandboxResult) :
  returned (interp h (run_sandbox o) w) = Ok res ->
  (success res = true -> timedOut res = false /\ error res = None)
  /\ (timedOut res = true ->
      success res = false /\ stderr res = "Execution timed out"
      /\ error res = Some "Timeout")
  /\ (error res = None -> timedOut res = false).
Proof.
  intros Hres.
  destruct (run_sandbox_sound h w o)
    as [e0 e|pre scriptId e Hpre|pre scriptId reply removed Hpre];
    try discriminate Hres.
  injection Hres as <-.
  destruct reply as [[|] output|e]; cbn [classify];
    [| |destruct (is_AbortError e)]; cbn;
    repeat split; intros; congruence.
Qed.

Lemma results_are_coherent_witness :
  (success (mkResult false "partial" "Execution timed out" true (Some "Timeout")) = true ->
   timedOut (mkResult false "partial" "Execution timed out" true (Some "Timeout")) = false
   /\ error (mkResult false "partial" "Execution timed out" true (Some "Timeout")) = None)
  /\ (timedOut (mkResult false "partial" "Execution timed out" true (Some "Timeout")) = true ->
      success (mkResult false "partial" "Execution timed out" true (Some "Timeout")) = false
      /\ stderr (mkResult false "partial" "Execution timed out" true (Some "Timeout"))
         = "Execution timed out"
      /\ error (mkResult false "partial" "Execution timed out" true (Some "Timeout"))
         = Some "Timeout")
  /\ (error (mkResult false "partial" "Execution timed out" true (Some "Timeout")) = None ->
      timedOut (mkResult false "partial" "Execution timed out" true (Some "Timeout")) = false).
Proof.
  apply (results_are_coherent World.h (Demo.world Demo.child_killed) Demo.options).
  vm_compute. reflexivity.
Defined.



(** ** More on the paths *)

Lemma includes_tail needle c s :
  includes needle (String c s) = false -> includes needle s = false.
Proof. cbn [includes]. intros H. now apply orb_false_elim in H as [_ H]. Qed.

(** A name without [".."] is left as it is by the removal of [".."]. *)
Lemma strip_dotdot_id s : includes ".." s = false -> strip_dotdot s = s.
Proof.
  induction s as [|c|c d s IHs IHd] using string_ind2; intros H.
  - reflexivity.
  - destruct (Ascii.eqb_spec c ".") as [->|Hc]; [reflexivity|].
    now rewrite strip_dotdot_other.
  - pose proof (includes_tail _ _ _ H) as Hd.
    destruct (Ascii.eqb_spec c ".") as [->|Hc].
    + destruct (Ascii.eqb_spec d ".") as [->|Hd'].
      * cbn in H. discriminate H.
      * rewrite strip_dotdot_dot_other by assumption.
        rewrite IHs; [reflexivity|]. exact (includes_tail _ _ _ Hd).
    + rewrite strip_dotdot_other by assumption. now rewrite IHd.
Qed.

(** X15. The files and the download endpoints agree on every name the download
    endpoint accepts: the path the files endpoint reads, writes, updates
    and deletes for that name is the path the download endpoint checks and
    opens, the workspace path followed by a slash and the name as it
    is. *)
Theorem files_and_download_agree (workspacePath name : string) :
  name <> "" ->
  has_traversal name = false ->
  filePath workspacePath (Some name) = Some (workspacePath +:+ "/" +:+ name).
Proof.
  intros Hname Htrav. apply String.eqb_neq in Hname.
  unfold filePath. rewrite Hname.
  unfold has_traversal in Htrav.
  apply orb_false_elim in Htrav as [Htrav _].
  apply orb_false_elim in Htrav as [Hdots _].
  now rewrite strip_dotdot_id.
Qed.

Lemma files_and_download_agree_witness :
  filePath "./ws" (Some "notes.txt") = Some ("./ws" +:+ "/" +:+ "notes.txt").
Proof.
  apply files_and_download_agree; [discriminate|reflexivity].
Defined.

Lemma strip_trailing_slashes_snoc s :
  strip_trailing_slashes (s +:+ "/") = strip_trailing_slashes s.
Proof.
  induction s as [|c s IH]; [reflexivity|].
  change (String c s +:+ "/") with (String c (s +:+ "/")).
  cbn [strip_trailing_slashes]. now rewrite IH.
Qed.

Lemma strip_trailing_slashes_end s :
  strip_trailing_slashes s = ""
  \/ exists t c, strip_trailing_slashes s = t +:+ String c "" /\ c <> "/"%char.
Proof.
  induction s as [|c s IH]; [now left|].
  cbn [strip_trailing_slashes].
  destruct (strip_trailing_slashes s) as [|d rest] eqn:Hs.
  - destruct (Ascii.eqb_spec c "/") as [->|Hc]; [now left|].
    right. exists "", c. split; [reflexivity|assumption].
  - right. destruct IH as [IH|(t & c' & IH & Hc')]; [discriminate|].
    exists (String c t), c'. split; [|assumption].
    change (String c t +:+ String c' "") with (String c (t +:+ String c' "")).
    now rewrite <- IH.
Qed.

(** X16. Slashes at the end of the workspace path do not change the script
    path: [run_sandbox] writes the same script for a workspace given with
    or without them, and the part of the script path before the script
    name never ends with two slashes. *)
Theorem script_path_ignores_trailing_slashes (workspace : string) (scriptId : list N) :
  scriptPath (workspace +:+ "/") scriptId = scriptPath workspace scriptId
  /\ scriptPath (strip_trailing_slashes workspace) scriptId = scriptPath workspace scriptId
  /\ (strip_trailing_slashes workspace = ""
      \/ exists t c, strip_trailing_slashes workspace = t +:+ String c ""
                     /\ c <> "/"%char).
Proof.
  unfold scriptPath. split; [now rewrite strip_trailing_slashes_snoc|].
  split; [|apply strip_trailing_slashes_end].
  f_equal.
  induction workspace as [|c s IH]; [reflexivity|].
  cbn [strip_trailing_slashes].
  destruct (strip_trailing_slashes s) as [|d rest] eqn:Hs.
  - destruct (Ascii.eqb_spec c "/") as [->|Hc]; [reflexivity|].
    cbn [strip_trailing_slashes]. destruct (Ascii.eqb_spec c "/"); [contradiction|].
    reflexivity.
  - change (strip_trailing_slashes (String c (String d rest)))
      with (match strip_trailing_slashes (String d rest) with
            | EmptyString => if Ascii.eqb c "/" then EmptyString else String c EmptyString
            | rest' => String c rest'
            end).
    now rewrite IH.
Qed.

(** ** Round trips in the file system of [World] *)

(** X17. In the file system of [World], what a creation or an update has
    written is what a reading of the same name then answers: if the write
    request is answered 200, a read request for that name, made next in
    the same workspace, is answered 200 with exactly the content
    written. *)
Theorem written_file_reads_back (w : World.world)
    (workspacePath action f data : string) :
  In action ["create"; "update"] ->
  let written :=
    interp World.h
      (files workspacePath (Ok (mkFilesBody (Some action) (Some f) (Some data)))) w in
  status (returned written) = 200 ->
  returned (interp World.h
              (files workspacePath (Ok (mkFilesBody (Some "read") (Some f) None)))
              (final written))
  = json (ContentJson data) 200.
Proof.
  intros Ha written. subst written.
  destruct (String.eqb_spec f "") as [->|Hf].
  { cbn [In] in Ha. destruct Ha as [<-|[<-|[]]];
      unfold files, files_action;
      cbn [fb_action fb_filename fb_content falsy filePath undefined default
           from_option id String.eqb Ascii.eqb Bool.eqb orb];
      cbn [interp bind call World.h fst snd returned trace final];
      destruct (World.stat (World.w_fs w) workspacePath); cbn; discriminate. }
  apply String.eqb_neq in Hf.
  cbn [In] in Ha. destruct Ha as [<-|[<-|[]]]; open_files Hf;
    cbn [interp bind call World.h fst snd returned trace final];
    destruct (World.stat (World.w_fs w) workspacePath) as [info|e] eqn:Hws;
    try (cbn; discriminate);
    cbn [interp bind call World.h fst snd returned trace final].
  - destruct (World.writeTextFile _ _ data) as [[[]|e] fs'] eqn:Hw;
      cbn [fst snd interp returned final status json]; [|discriminate].
    intros _. apply writeTextFile_ok in Hw as ->.
    unfold World.with_fs. cbn [World.w_fs].
    destruct (stat_insert _ _ (World.resolve (workspacePath +:+ "/" +:+ strip_dotdot f))
                (World.File data) _ Hws) as [info' ->].
    cbn [interp bind call World.h fst snd returned trace final World.w_fs].
    unfold World.readTextFile. now rewrite lookup_insert_eq.
  - destruct (World.stat (World.w_fs w) (workspacePath +:+ "/" +:+ strip_dotdot f))
      as [info1|e1];
      cbn [interp bind call World.h fst snd returned trace final];
      [|destruct (is_NotFound e1); cbn; discriminate].
    destruct (World.writeTextFile _ _ data) as [[[]|e] fs'] eqn:Hw;
      cbn [fst snd interp returned final status json];
      [|destruct (is_NotFound e); cbn; discriminate].
    intros _. apply writeTextFile_ok in Hw as ->.
    unfold World.with_fs. cbn [World.w_fs].
    destruct (stat_insert _ _ (World.resolve (workspacePath +:+ "/" +:+ strip_dotdot f))
                (World.File data) _ Hws) as [info' ->].
    cbn [interp bind call World.h fst snd returned trace final World.w_fs].
    unfold World.readTextFile. now rewrite lookup_insert_eq.
Qed.

Lemma written_file_reads_back_witness :
  returned (interp World.h
              (files "./ws" (Ok (mkFilesBody (Some "read") (Some "todo") None)))
              (final (interp World.h
                        (files "./ws"
                           (Ok (mkFilesBody (Some "create") (Some "todo") (Some "buy milk"))))
                        (Demo.world Demo.child_ok))))
  = json (ContentJson "buy milk") 200.
Proof.
  apply (written_file_reads_back (Demo.world Demo.child_ok) "./ws" "create" "todo"
           "buy milk").
  - cbn. tauto.
  - vm_compute. reflexivity.
Defined.

(** X18. In the file system of [World], a file that has been deleted is gone:
    if a delete request is answered 200, a read request and a second
    delete request for the same name, made next in the same workspace,
    are both answered 404. *)
Theorem deleted_file_is_gone (w : World.world) (workspacePath f : string) :
  let deleted :=
    interp World.h
      (files workspacePath (Ok (mkFilesBody (Some "delete") (Some f) None))) w in
  status (returned deleted) = 200 ->
  status (returned (interp World.h
                      (files workspacePath (Ok (mkFilesBody (Some "read") (Some f) None)))
                      (final deleted))) = 404
  /\ status (returned (interp World.h
                         (files workspacePath
                            (Ok (mkFilesBody (Some "delete") (Some f) None)))
                         (final deleted))) = 404.
Proof.
  intros deleted. subst deleted.
  destruct (String.eqb_spec f "") as [->|Hf].
  { unfold files, files_action;
      cbn [fb_action fb_filename fb_content falsy filePath undefined default
           from_option id String.eqb Ascii.eqb Bool.eqb orb];
      cbn [interp bind call World.h fst snd returned trace final];
      destruct (World.stat (World.w_fs w) workspacePath); cbn; discriminate. }
  apply String.eqb_neq in Hf. open_files Hf.
  cbn [interp bind call World.h fst snd returned trace final].
  destruct (World.stat (World.w_fs w) workspacePath) as [info|e] eqn:Hws;
    [|cbn; discriminate].
  cbn [interp bind call World.h fst snd returned trace final].
  destruct (World.remove _ _) as [[[]|e] fs'] eqn:Hrm;
    cbn [fst snd interp returned final status json];
    [|destruct (is_NotFound e); cbn; discriminate].
  intros _. apply remove_ok in Hrm as ->.
  unfold World.with_fs. cbn [World.w_fs].
  destruct (World.stat (delete _ (World.w_fs w)) workspacePath) as [info'|e'];
    cbn [interp bind call World.h fst snd returned trace final World.w_fs];
    [|split; reflexivity].
  unfold World.readTextFile, World.remove. rewrite lookup_delete_eq.
  split; reflexivity.
Qed.

Lemma deleted_file_is_gone_witness :
  status (returned (interp World.h
                      (files "./ws" (Ok (mkFilesBody (Some "read") (Some "notes") None)))
                      (final (interp World.h
                                (files "./ws"
                                   (Ok (mkFilesBody (Some "delete") (Some "notes") None)))
                                (Demo.world Demo.child_ok))))) = 404
  /\ status (returned (interp World.h
                         (files "./ws" (Ok (mkFilesBody (Some "delete") (Some "notes") None)))
                         (final (interp World.h
                                   (files "./ws"
                                      (Ok (mkFilesBody (Some "delete") (Some "notes") None)))
                                   (Demo.world Demo.child_ok))))) = 404.
Proof.
  apply (deleted_file_is_gone (Demo.world Demo.child_ok) "./ws" "notes").
  vm_compute. reflexivity.
Defined.



Lemma uuid_keeps_world (w : World.world) :
  World.w_fs (World.h _ RandomUUID w).2 = World.w_fs w
  /\ World.w_child (World.h _ RandomUUID w).2 = World.w_child w.
Proof. cbn [World.h]. destruct (World.w_ids w); split; reflexivity. Qed.

Lemma writeTextFile_new (fs : gmap (list string) World.node) path data fs' :
  fs !! World.resolve path = None ->
  World.writeTextFile fs path data = (Ok tt, fs') ->
  fs !! World.parent (World.resolve path) = Some (World.Dir true)
  /\ fs' = <[World.resolve path := World.File data]> fs.
Proof.
  unfold World.writeTextFile, World.add_entry. intros ->.
  destruct (fs !! World.parent (World.resolve path)) as [[content|[|]]|];
    try discriminate. now intros [= <-].
Qed.

(** X20. In the file system of [World], an execution cleans up after itself: in
    an existing workspace, when no file bears the name drawn for the
    script and the script leaves the tree alone, the tree after
    [run_sandbox] has returned is the tree before it. *)
Theorem clean_execution_restores_tree (w : World.world) (o : RunSandboxOptions) :
  (forall args t fs, (World.w_child w args t fs).2 = fs) ->
  is_Ok (World.stat (World.w_fs w) (workspace o)) = true ->
  World.present w (scriptPath (workspace o) (World.h _ RandomUUID w).1) = false ->
  let r := interp World.h (run_sandbox o) w in
  is_Ok (returned r) = true ->
  World.w_fs (final r) = World.w_fs w.
Proof.
  intros Hchild Hws Hfresh r. subst r.
  apply bool_decide_eq_false in Hfresh. rewrite <- eq_None_not_Some in Hfresh.
  destruct (uuid_keeps_world w) as [Hfs Hch].
  unfold run_sandbox.
  cbn [interp bind call fst snd returned trace final].
  change (World.h (result FileInfo) (DenoStat (workspace o)) w)
    with (World.stat (World.w_fs w) (workspace o), w).
  cbn [fst snd].
  destruct (World.stat (World.w_fs w) (workspace o)) as [info|e]; [|discriminate].
  cbn [interp bind call fst snd returned trace final].
  set (scriptId := (World.h (list N) RandomUUID w).1) in *.
  set (w1 := (World.h (list N) RandomUUID w).2) in *.
  set (q := World.resolve (scriptPath (workspace o) scriptId)) in *.
  change (World.h (result ()) (DenoWriteTextFile (scriptPath (workspace o) scriptId)
                                   (code o)) w1)
    with ((World.writeTextFile (World.w_fs w1) (scriptPath (workspace o) scriptId)
             (code o)).1,
          World.with_fs w1
            (World.writeTextFile (World.w_fs w1) (scriptPath (workspace o) scriptId)
               (code o)).2).
  cbn [fst snd].
  destruct (World.writeTextFile (World.w_fs w1) (scriptPath (workspace o) scriptId)
              (code o)) as [[[]|e] fs1] eqn:Hw;
    cbn [fst snd interp bind call returned trace final is_Ok]; [|discriminate].
  intros _. rewrite Hfs in Hw.
  apply writeTextFile_new in Hw as [Hparent ->]; [|exact Hfresh]. fold q in Hparent.
  cbn [World.h World.with_fs World.w_fs World.w_child World.w_ids fst snd].
  rewrite Hch, Hchild.
  unfold World.remove. fold q. rewrite lookup_insert_eq.
  assert (q <> World.parent q) as Hq by (intros Heq; congruence).
  rewrite lookup_insert_ne, Hparent by assumption.
  cbn [fst snd]. now apply delete_insert_id.
Qed.

Lemma clean_execution_restores_tree_witness :
  World.w_fs (final (interp World.h (run_sandbox Demo.options) (Demo.world Demo.child_ok)))
  = World.w_fs (Demo.world Demo.child_ok).
Proof.
  apply (clean_execution_restores_tree (Demo.world Demo.child_ok) Demo.options).
  - reflexivity.
  - vm_compute. reflexivity.
  - vm_compute. reflexivity.
  - vm_compute. reflexivity.
Defined.
